(** * pdsl: the predicate combinators of [helpers.js] and the grammar table

    A shallow embedding of the combinator library of pdsl
    ([src/packages/pdsl/helpers.js]) and of its grammar table, together
    with the part of the JavaScript value model these functions rely on.

    - JavaScript values are an inductive type; numbers are IEEE 754
      binary64 values in the representation of the Standard Library's
      [SpecFloat] and are compared with [SFcompare].  Arrays and objects
      carry the address they live at, which is what [===] compares.
      BigInt primitives, accessor properties and cyclic structures are
      outside the universe.
    - Every closure the library creates ([btwFn], [holdsFn], [isVal], ...)
      is a constructor of [func] that stores the variables the closure
      captures; [apply] runs a closure on a subject.
    - What the engine decides and the library does not (the behaviour of a
      caller-supplied function, conversions between strings and numbers,
      inherited properties) is a field of the [Host] interface; every
      theorem holds for every host.
    - A call either returns a value or throws, and it leaves the list of
      calls it made to caller-supplied functions.  Caller-supplied
      functions are pure: the same argument gives the same outcome, and
      no value is mutated. *)

From Stdlib Require Import ZArith String Ascii List Bool Lia DecimalString.
From Stdlib Require Import Floats.SpecFloat.
From stdpp Require Import base list strings.

Local Open Scope string_scope.
Local Open Scope list_scope.

(** ** Values *)

Set Warnings "-register-all".

Definition loc := nat.

Inductive value : Type :=
| VUndefined
| VNull
| VBool (b : bool)
| VNum (x : spec_float)
| VStr (s : string)
| VSymbol (id : nat)
| VFun (l : loc) (f : func)
| VArr (l : loc) (elems : list value)
| VObj (l : loc) (props : list (string * value))

(** Function objects: what the caller supplies, the [Boolean] constructor,
    and one constructor per closure of helpers.js with its captured
    variables. *)
with func : Type :=
| FHost (id : nat) (name : string)
| FBoolean
| FBtwFn (a b : value)
| FBtweFn (a b : value)
| FLtFn (a : value)
| FLteFn (a : value)
| FGtFn (a : value)
| FGteFn (a : value)
| FHoldsFn (args : list value)
| FOrFn (left right : value)
| FAndFn (left right : value)
| FNotFn (input : value)
| FObjFn (entries : list value)
| FIsVal (v : value)
| FDeepFn (st : value)
| FPrimArray
| FPrimTypeof (primative : func).

Inductive error : Type :=
| TypeError.

Inductive result (A : Type) : Type :=
| Ret (x : A)
| Throw (e : error).
Arguments Ret {A} x.
Arguments Throw {A} e.

#[global] Instance result_ret : MRet result := fun A x => Ret x.
#[global] Instance result_bind : MBind result := fun A B f m =>
  match m with
  | Ret x => f x
  | Throw e => Throw e
  end.

(** A run of library code: the calls made to caller-supplied functions,
    oldest first, and the outcome. *)
Record run (A : Type) : Type := Run {
  calls : list (nat * value);
  res : result A
}.
Arguments Run {A} calls res.
Arguments calls {A} r.
Arguments res {A} r.

#[global] Instance run_ret : MRet run := fun A x => Run [] (Ret x).
#[global] Instance run_bind : MBind run := fun A B f m =>
  match res m with
  | Ret x => Run (calls m ++ calls (f x)) (res (f x))
  | Throw e => Run (calls m) (Throw e)
  end.

(** A predicate in the making: a function from the subject to a run. *)
Abbreviation pred := (value -> run value).

Definition lift {A : Type} (r : result A) : run A := Run [] r.
Definition throw {A : Type} (e : error) : run A := Run [] (Throw e).

(** ** Operators of the language *)

Definition NaN : spec_float := S754_nan.
Definition pos_zero : spec_float := S754_zero false.
Definition one : spec_float := S754_finite false 4503599627370496 (-52).

(** [typeof v] *)
Definition typeof (v : value) : string :=
  match v with
  | VUndefined => "undefined"
  | VNull => "object"
  | VBool _ => "boolean"
  | VNum _ => "number"
  | VStr _ => "string"
  | VSymbol _ => "symbol"
  | VFun _ _ => "function"
  | VArr _ _ => "object"
  | VObj _ _ => "object"
  end.

(** [Array.isArray(v)] *)
Definition is_array (v : value) : bool :=
  match v with
  | VArr _ _ => true
  | _ => false
  end.

(** ToBoolean: [Boolean(v)], and the test [!], [&&] and [||] make. *)
Definition to_boolean (v : value) : bool :=
  match v with
  | VUndefined | VNull => false
  | VBool b => b
  | VNum x =>
      match x with
      | S754_zero _ | S754_nan => false
      | _ => true
      end
  | VStr s =>
      match s with
      | EmptyString => false
      | _ => true
      end
  | VSymbol _ | VFun _ _ | VArr _ _ | VObj _ _ => true
  end.

(** [a === b] (IsStrictlyEqual): no conversion; numbers by value, with NaN
    different from itself and the two zeros equal; objects by address. *)
Definition strict_equals (a b : value) : bool :=
  match a, b with
  | VUndefined, VUndefined => true
  | VNull, VNull => true
  | VBool x, VBool y => Bool.eqb x y
  | VNum x, VNum y => SFeqb x y
  | VStr s, VStr t => String.eqb s t
  | VSymbol i, VSymbol j => Nat.eqb i j
  | VFun l _, VFun m _ => Nat.eqb l m
  | VArr l _, VArr m _ => Nat.eqb l m
  | VObj l _, VObj m _ => Nat.eqb l m
  | _, _ => false
  end.

(** Undefined, null, booleans, numbers, strings and symbols are the
    primitive values; the others are objects. *)
Definition is_primitive (v : value) : bool :=
  match v with
  | VFun _ _ | VArr _ _ | VObj _ _ => false
  | _ => true
  end.

(** [s.toLowerCase()], on the ASCII letters. *)
Definition lower_ascii (c : ascii) : ascii :=
  let n := nat_of_ascii c in
  if (65 <=? n)%nat && (n <=? 90)%nat then ascii_of_nat (n + 32) else c.

Fixpoint toLowerCase (s : string) : string :=
  match s with
  | EmptyString => EmptyString
  | String c s' => String (lower_ascii c) (toLowerCase s')
  end.

(** The [name] property of a function object. *)
Definition func_name (f : func) : string :=
  match f with
  | FHost _ name => name
  | FBoolean => "Boolean"
  | FBtwFn _ _ => "btwFn"
  | FBtweFn _ _ => "btweFn"
  | FLtFn _ => "ltFn"
  | FLteFn _ => "lteFn"
  | FGtFn _ => "gtFn"
  | FGteFn _ => "gteFn"
  | FHoldsFn _ => "holdsFn"
  | FOrFn _ _ => "orFn"
  | FAndFn _ _ => "andFn"
  | FNotFn _ => "notFn"
  | FObjFn _ => "objFn"
  | FIsVal _ => "isVal"
  | FDeepFn _ => EmptyString
  | FPrimArray => EmptyString
  | FPrimTypeof _ => EmptyString
  end.

(** Property keys are strings or symbols. *)
Inductive pkey : Type :=
| KStr (s : string)
| KSym (id : nat).

(** ** The host

    The engine's side of the operations the library uses. *)
Class Host : Type := {
  (** the call [f(x)] of the caller-supplied function number [id] *)
  host_call : nat -> value -> result value;
  (** ToPrimitive of an object, towards a number: [valueOf], [toString] *)
  host_to_primitive : value -> result value;
  (** StringToNumber *)
  host_string_to_number : string -> spec_float;
  (** Number::toString *)
  host_number_to_string : spec_float -> string;
  (** ToPropertyKey of an object *)
  host_to_property_key : value -> result pkey;
  (** [[Get]] of what is not an own data property of an object: inherited
      members, the members of strings, numbers and functions *)
  host_inherited : value -> pkey -> result value;
  (** the values [n[0]], ..., [n[n.length - 1]] of a subject [n] that is
      neither an array nor absent *)
  host_indexed : value -> result (list value);
  (** the JSON text of an object with a [toJSON] method, [None] for
      undefined *)
  host_to_json : value -> result (option string)
}.

Section Semantics.

Context {H : Host}.

(** *** Relational comparison *)

(** ToPrimitive *)
Definition to_primitive (v : value) : result value :=
  if is_primitive v then Ret v
  else
    p ← host_to_primitive v;
    if is_primitive p then Ret p else Throw TypeError.

(** ToNumber of a primitive value *)
Definition to_number (p : value) : result spec_float :=
  match p with
  | VUndefined => Ret NaN
  | VNull => Ret pos_zero
  | VBool b => Ret (if b then one else pos_zero)
  | VNum x => Ret x
  | VStr s => Ret (host_string_to_number s)
  | _ => Throw TypeError
  end.

(** IsLessThan on two primitives: strings by code unit, anything else as
    numbers; [None] when a NaN is involved. *)
Definition less_than_prim (px py : value) : result (option bool) :=
  match px, py with
  | VStr s, VStr t => Ret (Some (String.ltb s t))
  | _, _ =>
      nx ← to_number px;
      ny ← to_number py;
      Ret (match SFcompare nx ny with
           | Some Lt => Some true
           | Some _ => Some false
           | None => None
           end)
  end.

Definition is_true (r : option bool) : bool :=
  match r with
  | Some true => true
  | _ => false
  end.

(** [x < y]: the left operand is converted first. *)
Definition js_lt (x y : value) : result bool :=
  px ← to_primitive x;
  py ← to_primitive y;
  r ← less_than_prim px py;
  Ret (is_true r).

(** [x > y] is [y < x] with the operands converted left to right. *)
Definition js_gt (x y : value) : result bool :=
  px ← to_primitive x;
  py ← to_primitive y;
  r ← less_than_prim py px;
  Ret (is_true r).

Definition is_false (r : option bool) : bool :=
  match r with
  | Some false => true
  | _ => false
  end.

(** [x <= y] is "not [y < x]", false when a NaN is involved. *)
Definition js_le (x y : value) : result bool :=
  px ← to_primitive x;
  py ← to_primitive y;
  r ← less_than_prim py px;
  Ret (is_false r).

(** [x >= y] is "not [x < y]", false when a NaN is involved. *)
Definition js_ge (x y : value) : result bool :=
  px ← to_primitive x;
  py ← to_primitive y;
  r ← less_than_prim px py;
  Ret (is_false r).

(** *** Property access *)

Fixpoint assoc (k : string) (props : list (string * value)) : option value :=
  match props with
  | [] => None
  | (k', v) :: props' => if String.eqb k k' then Some v else assoc k props'
  end.

(** The number a length is. *)
Definition number_of_nat (n : nat) : spec_float :=
  binary_normalize 53 1024 (Z.of_nat n) 0 false.

(** The array index a key spells, if it is the decimal numeral of one. *)
Definition array_index (k : string) : option nat :=
  match NilZero.uint_of_string k with
  | Some u =>
      let i := Nat.of_uint u in
      if String.eqb (NilZero.string_of_uint (Nat.to_uint i)) k then Some i
      else None
  | None => None
  end.

(** The own data properties: the entries of an object, the elements and
    the length of an array, the name of a function. *)
Definition own_property (a : value) (k : pkey) : option value :=
  match a, k with
  | VObj _ props, KStr s => assoc s props
  | VArr _ elems, KStr s =>
      if String.eqb s "length" then Some (VNum (number_of_nat (length elems)))
      else match array_index s with
           | Some i => elems !! i
           | None => None
           end
  | VFun _ f, KStr s =>
      if String.eqb s "name" then Some (VStr (func_name f)) else None
  | _, _ => None
  end.

(** ToPropertyKey *)
Definition to_property_key (key : value) : result pkey :=
  match key with
  | VStr s => Ret (KStr s)
  | VSymbol i => Ret (KSym i)
  | VUndefined => Ret (KStr "undefined")
  | VNull => Ret (KStr "null")
  | VBool b => Ret (KStr (if b then "true" else "false"))
  | VNum x => Ret (KStr (host_number_to_string x))
  | _ => host_to_property_key key
  end.

(** [a[key]] *)
Definition get (a key : value) : result value :=
  match a with
  | VUndefined | VNull => Throw TypeError
  | _ =>
      k ← to_property_key key;
      match own_property a k with
      | Some v => Ret v
      | None => host_inherited a k
      end
  end.

(** The values [n[0]], ..., [n[n.length - 1]] that the loop
    [for (i = 0; i < n.length; i++)] of [holdsFn] reads: reading the
    length of an absent subject throws. *)
Definition indexed (n : value) : result (list value) :=
  match n with
  | VUndefined | VNull => Throw TypeError
  | VArr _ elems => Ret elems
  | _ => host_indexed n
  end.

(** *** The bodies of the closures

    Each body is written over the functions its captured arguments
    resolve to, of type [pred]; [apply] below ties them to the closures. *)

(** A loop that threads one variable through its iterations. *)
Fixpoint for_each {A S : Type} (xs : list A) (body : S -> A -> run S) (s : S)
  : run S :=
  match xs with
  | [] => mret s
  | x :: xs' => s' ← body s x; for_each xs' body s'
  end.

(** The call [f(x)] of a caller-supplied function. *)
Definition call_host (id : nat) (x : value) : run value :=
  Run [(id, x)] (host_call id x).

(** [function isVal(a) { return a === value; }] *)
Definition isVal (value0 : value) (a : value) : run value :=
  mret (VBool (strict_equals a value0)).

(** [function btwFn(n) {
       const [min, max] = a < b ? [a, b] : [b, a];
       return n > min && n < max;
     }] *)
Definition btwFn (a b : value) (n : value) : run value :=
  c ← lift (js_lt a b);
  let '(min, max) := if c : bool then (a, b) else (b, a) in
  g ← lift (js_gt n min);
  if g : bool then l ← lift (js_lt n max); mret (VBool l)
  else mret (VBool false).

(** [function btweFn(n) {
       const [min, max] = a < b ? [a, b] : [b, a];
       return n >= min && n <= max;
     }] *)
Definition btweFn (a b : value) (n : value) : run value :=
  c ← lift (js_lt a b);
  let '(min, max) := if c : bool then (a, b) else (b, a) in
  g ← lift (js_ge n min);
  if g : bool then l ← lift (js_le n max); mret (VBool l)
  else mret (VBool false).

Definition ltFn (a : value) (n : value) : run value :=
  r ← lift (js_lt n a); mret (VBool r).
Definition lteFn (a : value) (n : value) : run value :=
  r ← lift (js_le n a); mret (VBool r).
Definition gtFn (a : value) (n : value) : run value :=
  r ← lift (js_gt n a); mret (VBool r).
Definition gteFn (a : value) (n : value) : run value :=
  r ← lift (js_ge n a); mret (VBool r).

(** [function orFn(a) { return val(left)(a) || val(right)(a); }] *)
Definition orFn (left right : pred) (a : value) : run value :=
  x ← left a;
  if to_boolean x then mret x else right a.

(** [function andFn(a) { return val(left)(a) && val(right)(a); }] *)
Definition andFn (left right : pred) (a : value) : run value :=
  x ← left a;
  if to_boolean x then right a else mret x.

(** [function notFn(a) { return !val(input)(a); }] *)
Definition notFn (input : pred) (a : value) : run value :=
  x ← input a;
  mret (VBool (negb (to_boolean x))).

(** The body of the inner loop of [holdsFn]:
    [if (!success[j]) { const fn = fns[j];
                        success[j] = success[j] || fn(item); }].
    [j] is below the length of both arrays, which are as long as [args]. *)
Definition holds_visit (fns : list pred) (item : value)
    (success : list value) (j : nat) : run (list value) :=
  let s := default VUndefined (success !! j) in
  if negb (to_boolean s) then
    match fns !! j with
    | Some fn =>
        v ← (if to_boolean s then mret s else fn item);
        mret (<[j := v]> success)
    | None => throw TypeError
    end
  else mret success.

(** [(a, b) => a && b] *)
Definition js_and (a b : value) : value :=
  if to_boolean a then b else a.

(** [success.reduce((a, b) => a && b)]: no initial value, so an empty
    array throws. *)
Definition reduce_and (success : list value) : run value :=
  match success with
  | [] => throw TypeError
  | s :: rest => mret (fold_left js_and rest s)
  end.

(** [function holdsFn(n)], over [fns], the array of [val(arg)]. *)
Definition holdsFn (fns : list pred) (n : value) : run value :=
  let success := map (fun _ => VBool false) fns in
  items ← lift (indexed n);
  success' ←
    for_each items
      (fun success item =>
         for_each (seq 0 (length fns)) (holds_visit fns item) success)
      success;
  reduce_and success'.

(** The callback of the [reduce] of [objFn], with the entry already taken
    apart by [const [key, predicate] = ...]:
    [acc && Boolean(a) && predicate(a[key])]. *)
Definition obj_step (a : value) (acc : value) (entry : value * pred)
  : run value :=
  let '(key, predicate) := entry in
  if to_boolean acc then
    if to_boolean a then
      x ← lift (get a key);
      predicate x
    else mret (VBool (to_boolean a))
  else mret acc.

(** [function objFn(a) { return entries.reduce(..., true); }] *)
Definition objFn (entries : list (value * pred)) (a : value) : run value :=
  for_each entries (obj_step a) (VBool true).

(** *** JSON.stringify *)

Definition quote_char : ascii := ascii_of_nat 34.
Definition backslash : ascii := ascii_of_nat 92.

Definition hex_digit (n : nat) : ascii :=
  if (n <? 10)%nat then ascii_of_nat (48 + n) else ascii_of_nat (87 + n).

(** The escape of one character inside a JSON string. *)
Definition json_escape (c : ascii) : string :=
  let n := nat_of_ascii c in
  if (n =? 34)%nat then String backslash (String quote_char EmptyString)
  else if (n =? 92)%nat then String backslash (String backslash EmptyString)
  else if (n =? 8)%nat then String backslash "b"
  else if (n =? 12)%nat then String backslash "f"
  else if (n =? 10)%nat then String backslash "n"
  else if (n =? 13)%nat then String backslash "r"
  else if (n =? 9)%nat then String backslash "t"
  else if (n <? 32)%nat then
    String backslash
      ("u00" +:+ String (hex_digit (n / 16)) (String (hex_digit (n mod 16))
                                               EmptyString))
  else String c EmptyString.

Fixpoint json_escape_all (s : string) : string :=
  match s with
  | EmptyString => EmptyString
  | String c s' => json_escape c +:+ json_escape_all s'
  end.

(** QuoteJSONString *)
Definition json_quote (s : string) : string :=
  String quote_char (json_escape_all s +:+ String quote_char EmptyString).

(** [parts.join(",")] *)
Fixpoint join_comma (parts : list string) : string :=
  match parts with
  | [] => EmptyString
  | [p] => p
  | p :: ps => p +:+ "," +:+ join_comma ps
  end.

Definition is_finite (x : spec_float) : bool :=
  match x with
  | S754_zero _ | S754_finite _ _ _ => true
  | _ => false
  end.

Definition is_callable (v : value) : bool :=
  match v with
  | VFun _ _ => true
  | _ => false
  end.

(** Whether the object has a callable [toJSON] member. *)
Definition has_toJSON (v : value) : result bool :=
  t ← get v (VStr "toJSON");
  Ret (is_callable t).

(** SerializeJSONProperty: the JSON text of a value, [None] where
    JSON.stringify gives undefined.  The properties of an object are listed
    in the order the engine enumerates them. *)
Fixpoint serialize (v : value) : result (option string) :=
  match v with
  | VUndefined | VSymbol _ => Ret None
  | VNull => Ret (Some "null")
  | VBool b => Ret (Some (if b then "true" else "false"))
  | VNum x =>
      Ret (Some (if is_finite x then host_number_to_string x else "null"))
  | VStr s => Ret (Some (json_quote s))
  | VFun _ _ =>
      j ← has_toJSON v;
      if j : bool then host_to_json v else Ret None
  | VArr _ elems =>
      j ← has_toJSON v;
      if j : bool then host_to_json v
      else
        parts ←
          (fix items (es : list value) : result (list string) :=
             match es with
             | [] => Ret []
             | e :: es' =>
                 p ← serialize e;
                 ps ← items es';
                 Ret (default "null" p :: ps)
             end) elems;
        Ret (Some ("[" +:+ join_comma parts +:+ "]"))
  | VObj _ props =>
      j ← has_toJSON v;
      if j : bool then host_to_json v
      else
        parts ←
          (fix members (ps : list (string * value)) : result (list string) :=
             match ps with
             | [] => Ret []
             | (k, e) :: ps' =>
                 p ← serialize e;
                 ms ← members ps';
                 Ret (match p with
                      | Some s => (json_quote k +:+ ":" +:+ s) :: ms
                      | None => ms
                      end)
             end) props;
        Ret (Some ("{" +:+ join_comma parts +:+ "}"))
  end.

(** [JSON.stringify(v)]: a string, or undefined. *)
Definition JSON_stringify (v : value) : result value :=
  r ← serialize v;
  Ret (match r with
       | Some s => VStr s
       | None => VUndefined
       end).

(** [a => st === JSON.stringify(a)] *)
Definition deepFn (st : value) (a : value) : run value :=
  s ← lift (JSON_stringify a);
  mret (VBool (strict_equals st s)).

(** [a => Array.isArray(a)] *)
Definition primArray (a : value) : run value :=
  mret (VBool (is_array a)).

(** [a => typeof a === primative.name.toLowerCase()] *)
Definition primTypeof (primative : func) (a : value) : run value :=
  mret (VBool (String.eqb (typeof a) (toLowerCase (func_name primative)))).

(** [Boolean(a)] *)
Definition BooleanFn (a : value) : run value :=
  mret (VBool (to_boolean a)).

(** The call of a value that is not a function. *)
Definition not_callable (a : value) : run value :=
  throw TypeError.

(** *** Running a closure *)

(** [apply f a] is the call [f(a)]; [call_val v a] is [val(v)(a)];
    [invoke v a] is [v(a)] for any value [v]; [entry_parts entry] is what
    [const [key, predicate] = Array.isArray(entry) ? entry : [entry, Boolean]]
    binds, with [predicate] ready to be called. *)
Fixpoint apply (f : func) {struct f} : pred :=
  match f with
  | FHost id _ => call_host id
  | FBoolean => BooleanFn
  | FBtwFn a b => btwFn a b
  | FBtweFn a b => btweFn a b
  | FLtFn a => ltFn a
  | FLteFn a => lteFn a
  | FGtFn a => gtFn a
  | FGteFn a => gteFn a
  | FHoldsFn args => holdsFn (map call_val args)
  | FOrFn lhs rhs => orFn (call_val lhs) (call_val rhs)
  | FAndFn lhs rhs => andFn (call_val lhs) (call_val rhs)
  | FNotFn input => notFn (call_val input)
  | FObjFn entries => objFn (map entry_parts entries)
  | FIsVal v => isVal v
  | FDeepFn st => deepFn st
  | FPrimArray => primArray
  | FPrimTypeof primative => primTypeof primative
  end

with call_val (v : value) {struct v} : pred :=
  match v with
  | VFun _ f => apply f
  | _ => isVal v
  end

with invoke (v : value) {struct v} : pred :=
  match v with
  | VFun _ f => apply f
  | _ => not_callable
  end

with entry_parts (entry : value) {struct entry} : value * pred :=
  match entry with
  | VArr _ elems =>
      (default VUndefined (elems !! 0%nat),
       match elems with
       | _ :: p :: _ => invoke p
       | _ => not_callable
       end)
  | _ => (entry, BooleanFn)
  end.

End Semantics.

(** ** The exported functions of helpers.js

    Each returns the closure it creates.  A function that allocates an
    object takes the address the engine gives it. *)
Module Helpers.

Definition btw (a b : value) : func := FBtwFn a b.
Definition btwe (a b : value) : func := FBtweFn a b.
Definition lt (a : value) : func := FLtFn a.
Definition lte (a : value) : func := FLteFn a.
Definition gt (a : value) : func := FGtFn a.
Definition gte (a : value) : func := FGteFn a.
Definition holds (args : list value) : func := FHoldsFn args.
Definition or (left right : value) : func := FOrFn left right.
Definition and (left right : value) : func := FAndFn left right.
Definition not (input : value) : func := FNotFn input.
Definition obj (entries : list value) : func := FObjFn entries.

(** [typeof value === "function" ? value : function isVal(a) {...}]:
    a function is returned as it is, anything else becomes a new closure,
    at the address [fresh]. *)
Definition val (fresh : loc) (value0 : value) : value :=
  if String.eqb (typeof value0) "function" then value0
  else VFun fresh (FIsVal value0).

(** [const st = JSON.stringify(value); return a => st === JSON.stringify(a);] *)
Definition deep `{Host} (value0 : value) : result func :=
  st ← JSON_stringify value0;
  Ret (FDeepFn st).

(** [if (primative.name === "Array") return a => Array.isArray(a);
     return a => typeof a === primative.name.toLowerCase();] *)
Definition prim (primative : func) : func :=
  if String.eqb (func_name primative) "Array" then FPrimArray
  else FPrimTypeof primative.

(** [return [name, val(predicate)];], the array allocated at [l]. *)
Definition entry (l fresh : loc) (name predicate : value) : value :=
  VArr l [name; val fresh predicate].

End Helpers.

(** ** The grammar table

    [tokens] maps each token name to the source of its pattern; [grammar]
    maps the source of a pattern to the function that builds the node of a
    matched lexeme.  The [toString] methods of the nodes are left out. *)
Module Grammar.

Inductive token_name : Type :=
| NOT | AND | OR | BTW | GT | GTE | LT | LTE | ENTRY | OBJ | OBJ_CLOSE | ARG
| SYMBOL | NUMBER | STRING_DOUBLE | STRING_SINGLE | PREDICATE_LOOKUP
| PRECEDENCE | PRECEDENCE_CLOSE.

Definition dq : string := String quote_char EmptyString.

Definition tokens (t : token_name) : string :=
  match t with
  | NOT => "\!"
  | AND => "\&\&"
  | OR => "\|\|"
  | BTW => "\<\s\<"
  | GT => "\>"
  | GTE => "\>\="
  | LT => "\<"
  | LTE => "\<\="
  | ENTRY => "\:"
  | OBJ => "\{"
  | OBJ_CLOSE => "\}"
  | ARG => "\,"
  | SYMBOL => "[a-zA-Z_]+[a-zA-Z0-9_-]*"
  | NUMBER => "-?\d+\.?\d*"
  | STRING_DOUBLE => "\" +:+ dq +:+ "[^\" +:+ dq +:+ "]*\" +:+ dq
  | STRING_SINGLE => "\'[^\']*\'"
  | PREDICATE_LOOKUP => "@{LINK:(\d+)}"
  | PRECEDENCE => "\("
  | PRECEDENCE_CLOSE => "\)"
  end.

(** The [runtime] of a node: the function of helpers.js that builds its
    predicate. *)
Inductive runtime_fn : Type :=
| Unary (f : value -> func)
| Binary (f : value -> value -> func)
| Pairing (f : loc -> loc -> value -> value -> value)
| Variadic (f : list value -> func).

(** The [token] of a node: the lexeme itself, [Number(token)], or the
    first group of [token.match(pattern)]. *)
Inductive payload : Type :=
| Lexeme (token : string)
| NumberOf (token : string)
| Group1 (pattern token : string).

Record node : Type := Node {
  type : string;
  token : payload;
  arity : option nat;
  runtime : option runtime_fn;
  prec : option nat;
  matchingToken : option string
}.

Definition literal (type0 : string) (token0 : payload) : node :=
  Node type0 token0 None None None None.

Definition operator (token0 : string) (arity0 : nat) (runtime0 : runtime_fn)
    (prec0 : nat) : node :=
  Node "Operator" (Lexeme token0) (Some arity0) (Some runtime0) (Some prec0)
    None.

Definition grammar : list (string * (string -> node)) :=
  [ (tokens SYMBOL, fun token => literal "SymbolLiteral" (Lexeme token));
    (tokens NUMBER, fun token => literal "NumericLiteral" (NumberOf token));
    (tokens STRING_DOUBLE,
     fun token =>
       literal "StringLiteral" (Group1 ("\" +:+ dq +:+ "(.*)\" +:+ dq) token));
    (tokens STRING_SINGLE,
     fun token => literal "StringLiteral" (Group1 "\'(.*)\'" token));
    (tokens PREDICATE_LOOKUP,
     fun token => literal "PredicateLookup" (Group1 "@{LINK:(\d+)}" token));
    (tokens NOT, fun token => operator token 1 (Unary Helpers.not) 10);
    (tokens AND, fun token => operator token 2 (Binary Helpers.and) 20);
    (tokens OR, fun token => operator token 2 (Binary Helpers.or) 30);
    (tokens BTW, fun token => operator token 2 (Binary Helpers.btw) 50);
    (tokens GTE, fun token => operator token 1 (Unary Helpers.gte) 50);
    (tokens LTE, fun token => operator token 1 (Unary Helpers.lte) 50);
    (tokens GT, fun token => operator token 1 (Unary Helpers.gt) 50);
    (tokens LT, fun token => operator token 1 (Unary Helpers.lt) 50);
    (tokens ENTRY, fun token => operator token 2 (Pairing Helpers.entry) 100);
    (tokens OBJ,
     fun token =>
       Node "VariableArityOperator" (Lexeme token) (Some 0%nat)
         (Some (Variadic Helpers.obj)) (Some 100%nat) None);
    (tokens OBJ_CLOSE,
     fun token =>
       Node "VariableArityOperatorClose" (Lexeme token) None None None
         (Some "{"));
    (tokens ARG, fun token => literal "ArgumentSeparator" (Lexeme token));
    (tokens PRECEDENCE,
     fun token => literal "PrecidenceOperator" (Lexeme token));
    (tokens PRECEDENCE_CLOSE,
     fun token => literal "PrecidenceOperatorClose" (Lexeme token)) ].

(** [grammar[key]] *)
Fixpoint lookup_rule (key : string) (table : list (string * (string -> node)))
  : option (string -> node) :=
  match table with
  | [] => None
  | (k, mk) :: table' =>
      if String.eqb key k then Some mk else lookup_rule key table'
  end.

(** The precedence rank the table gives the node of a token. *)
Definition rank (t : token_name) (lexeme : string) : option nat :=
  match lookup_rule (tokens t) grammar with
  | Some mk => prec (mk lexeme)
  | None => None
  end.

(** Negation, conjunction, disjunction, between and the comparisons. *)
Definition combinators : list token_name :=
  [NOT; AND; OR; BTW; GT; GTE; LT; LTE].

End Grammar.

(** ** A host to run examples on

    Its caller-supplied functions are [x => false] (number 0),
    [x => true] (1), [x => { throw new TypeError(); }] (2), [x => 1] (3)
    and [a => typeof a === "number" && a > 3] (4); objects have no
    inherited members and no conversion of their own. *)
Definition bare_host : Host := {|
  host_call := fun id x =>
    match id with
    | 0%nat => Ret (VBool false)
    | 1%nat => Ret (VBool true)
    | 2%nat => Throw TypeError
    | 3%nat => Ret (VNum one)
    | 4%nat =>
        Ret (VBool (match x with
                    | VNum y => SFltb (number_of_nat 3) y
                    | _ => false
                    end))
    | _ => Ret VUndefined
    end;
  host_to_primitive := fun _ => Throw TypeError;
  host_string_to_number := fun _ => NaN;
  host_number_to_string := fun _ => "NaN";
  host_to_property_key := fun _ => Throw TypeError;
  host_inherited := fun _ _ => Ret VUndefined;
  host_indexed := fun _ => Ret [];
  host_to_json := fun _ => Throw TypeError
|}.

(** The caller's functions of [bare_host], as function objects. *)
Definition never : value := VFun 100 (FHost 0 "never").
Definition always : value := VFun 101 (FHost 1 "always").
Definition thrower : value := VFun 102 (FHost 2 "thrower").
Definition give_one : value := VFun 103 (FHost 3 "giveOne").
Definition above_three : value := VFun 104 (FHost 4 "aboveThree").

(** The number literals of the examples. *)
Definition num (n : nat) : value := VNum (number_of_nat n).

(** ** The vocabulary of the properties *)

Section Vocabulary.

Context {H : Host}.

(** The comparison of two finite values of one sign: exponents first. *)
Definition lex_compare (e1 : Z) (m1 : positive) (e2 : Z) (m2 : positive)
  : comparison :=
  match Z.compare e1 e2 with
  | Lt => Lt
  | Gt => Gt
  | Eq => Pos.compare m1 m2
  end.

(** [inside lo hi x]: [x] is strictly above [lo] and strictly below [hi]. *)
Definition inside (lo hi x : spec_float) : bool := SFltb lo x && SFltb x hi.

(** The smaller and the larger of two bounds. *)
Definition smaller (a b : spec_float) : spec_float := if SFleb a b then a else b.

Definition larger (a b : spec_float) : spec_float := if SFleb a b then b else a.

(** The number a subject is compared as. *)
Definition subject_number (n : value) : result spec_float :=
  p ← to_primitive n; to_number p.

(** Whether a predicate accepts an item: it returns a truthy value. *)
Definition verdict (fn : pred) (item : value) : bool :=
  match res (fn item) with
  | Ret v => to_boolean v
  | Throw _ => false
  end.

(** The state of [success] when position [j] holds [g] of the [j]-th
    predicate. *)
Definition marks (g : pred -> bool) (l : list pred) : list value :=
  map (fun fn => VBool (g fn)) l.

(** Every argument is satisfied by at least one element. *)
Definition holds_verdict (args elems : list value) : bool :=
  forallb (fun arg => existsb (verdict (call_val arg)) elems) args.

(** The scalar values: numbers, booleans, the two absence-of-value
    sentinels and symbols. *)
Definition scalar (v : value) : bool :=
  match v with
  | VUndefined | VNull | VBool _ | VNum _ | VSymbol _ => true
  | _ => false
  end.

(** Identity of a subject with a scalar: the same sentinel, boolean or
    symbol; for a number, a number equal to it (NaN equals nothing, the
    two zeros are one another). *)
Definition same_scalar (a v : value) : Prop :=
  match v with
  | VNum x => exists y, a = VNum y /\ SFeqb y x = true
  | _ => a = v
  end.

(** The type descriptors. *)
Inductive descriptor : Type :=
| DArray | DBoolean | DNumber | DSymbol | DBigInt | DString | DFunction
| DObject.

Definition descriptor_name (d : descriptor) : string :=
  match d with
  | DArray => "Array"
  | DBoolean => "Boolean"
  | DNumber => "Number"
  | DSymbol => "Symbol"
  | DBigInt => "BigInt"
  | DString => "String"
  | DFunction => "Function"
  | DObject => "Object"
  end.

(** The constructor function that stands for a type: [Boolean] is the
    function [objFn] calls too, the others are functions of the engine,
    [id] being the engine's number for it. *)
Definition sentinel (id : nat) (d : descriptor) : func :=
  match d with
  | DBoolean => FBoolean
  | _ => FHost id (descriptor_name d)
  end.

(** The absent subjects. *)
Definition absent (a : value) : bool :=
  match a with
  | VUndefined | VNull => true
  | _ => false
  end.

(** The predicate of an entry accepts the value of the subject at the key
    of the entry: the value is read, and the predicate returns a truthy
    value on it. *)
Definition accepts_at (a entry : value) : Prop :=
  exists x w, get a (fst (entry_parts entry)) = Ret x
              /\ res (snd (entry_parts entry) x) = Ret w
              /\ to_boolean w = true.

End Vocabulary.

(** ** The vocabulary of the further properties *)

Section FurtherVocabulary.

Context {H : Host}.

(** [within lo hi x]: [x] is at least [lo] and at most [hi]. *)
Definition within (lo hi x : spec_float) : bool := SFleb lo x && SFleb x hi.

(** Neither operand is NaN. *)
Definition comparable (x y : spec_float) : bool :=
  match SFcompare x y with
  | Some _ => true
  | None => false
  end.

Definition is_nan (x : spec_float) : bool :=
  match x with
  | S754_nan => true
  | _ => false
  end.

(** The values a descriptor names the type of. *)
Definition descriptor_accepts (d : descriptor) (a : value) : bool :=
  match d, a with
  | DArray, VArr _ _ => true
  | DBoolean, VBool _ => true
  | DNumber, VNum _ => true
  | DSymbol, VSymbol _ => true
  | DString, VStr _ => true
  | DFunction, VFun _ _ => true
  | DObject, VNull => true
  | DObject, VArr _ _ => true
  | DObject, VObj _ _ => true
  | _, _ => false
  end.

(** A value with the addresses of its arrays, objects and functions
    forgotten: what two separately built copies have in common.  The
    variables a function captured are left as they are. *)
Fixpoint erase (v : value) : value :=
  match v with
  | VFun _ f => VFun 0 f
  | VArr _ elems => VArr 0 (map erase elems)
  | VObj _ props =>
      VObj 0 (map (fun p => let '(k, x) := p in (k, erase x)) props)
  | _ => v
  end.

(** Reading a JSON string body back: the inverse of [json_escape_all]. *)
Definition hex_value (c : ascii) : nat :=
  let n := nat_of_ascii c in
  if (n <? 58)%nat then (n - 48)%nat else (n - 87)%nat.

Definition unescape_letter (c : ascii) : ascii :=
  let n := nat_of_ascii c in
  if (n =? 98)%nat then ascii_of_nat 8
  else if (n =? 102)%nat then ascii_of_nat 12
  else if (n =? 110)%nat then ascii_of_nat 10
  else if (n =? 114)%nat then ascii_of_nat 13
  else if (n =? 116)%nat then ascii_of_nat 9
  else c.

Fixpoint json_unescape (s : string) : string :=
  match s with
  | EmptyString => EmptyString
  | String c r =>
      if (nat_of_ascii c =? 92)%nat then
        match r with
        | EmptyString => EmptyString
        | String d r' =>
            if (nat_of_ascii d =? 117)%nat then
              match r' with
              | String _ (String _ (String h1 (String h2 r''))) =>
                  String (ascii_of_nat (16 * hex_value h1 + hex_value h2))
                    (json_unescape r'')
              | _ => EmptyString
              end
            else String (unescape_letter d) (json_unescape r')
        end
      else String c (json_unescape r)
  end.

End FurtherVocabulary.

(** ** The node tests of the grammar file

    [None] stands for an absent node, undefined or null. *)
Section NodeTests.

Context {H : Host}.

(** [if (!node) return false; return node.type === "Operator";] *)
Definition isOperator (node0 : option Grammar.node) : bool :=
  match node0 with
  | None => false
  | Some n => String.eqb (Grammar.type n) "Operator"
  end.

(** The object literal [{ NumericLiteral: 1, StringLiteral: 1,
    SymbolLiteral: 1 }], allocated at [l]. *)
Definition literal_types (l : loc) : value :=
  VObj l [("NumericLiteral", VNum one); ("StringLiteral", VNum one);
          ("SymbolLiteral", VNum one)].

(** [if (!node) return false;
     return ({ NumericLiteral: 1, StringLiteral: 1, SymbolLiteral: 1 }
             [node.type] || false);] *)
Definition isLiteral (l : loc) (node0 : option Grammar.node) : result value :=
  match node0 with
  | None => Ret (VBool false)
  | Some n =>
      x ← get (literal_types l) (VStr (Grammar.type n));
      Ret (if to_boolean x then x else VBool false)
  end.

Definition isPredicateLookup (node0 : option Grammar.node) : bool :=
  match node0 with
  | None => false
  | Some n => String.eqb (Grammar.type n) "PredicateLookup"
  end.

Definition isVaradicFunctionClose (node0 : option Grammar.node) : bool :=
  match node0 with
  | None => false
  | Some n => String.eqb (Grammar.type n) "VariableArityOperatorClose"
  end.

Definition isVaradicFunction (node0 : option Grammar.node) : bool :=
  match node0 with
  | None => false
  | Some n => String.eqb (Grammar.type n) "VariableArityOperator"
  end.

Definition isArgumentSeparator (node0 : option Grammar.node) : bool :=
  match node0 with
  | None => false
  | Some n => String.eqb (Grammar.type n) "ArgumentSeparator"
  end.

Definition isPrecidenceOperator (node0 : option Grammar.node) : bool :=
  match node0 with
  | None => false
  | Some n => String.eqb (Grammar.type n) "PrecidenceOperator"
  end.

Definition isPrecidenceOperatorClose (node0 : option Grammar.node) : bool :=
  match node0 with
  | None => false
  | Some n => String.eqb (Grammar.type n) "PrecidenceOperatorClose"
  end.

(** The names of [tokens]. *)
Definition all_tokens : list Grammar.token_name :=
  [Grammar.NOT; Grammar.AND; Grammar.OR; Grammar.BTW; Grammar.GT; Grammar.GTE;
   Grammar.LT; Grammar.LTE; Grammar.ENTRY; Grammar.OBJ; Grammar.OBJ_CLOSE;
   Grammar.ARG; Grammar.SYMBOL; Grammar.NUMBER; Grammar.STRING_DOUBLE;
   Grammar.STRING_SINGLE; Grammar.PREDICATE_LOOKUP; Grammar.PRECEDENCE;
   Grammar.PRECEDENCE_CLOSE].

(** The node the table builds for a lexeme of a token. *)
Definition node_of (t : Grammar.token_name) (lexeme : string)
  : option Grammar.node :=
  match Grammar.lookup_rule (Grammar.tokens t) Grammar.grammar with
  | Some mk => Some (mk lexeme)
  | None => None
  end.

(** The number of parameters of a runtime function; none for the variadic
    [obj]. *)
Definition parameters (r : Grammar.runtime_fn) : option nat :=
  match r with
  | Grammar.Unary _ => Some 1%nat
  | Grammar.Binary _ => Some 2%nat
  | Grammar.Pairing _ => Some 2%nat
  | Grammar.Variadic _ => None
  end.

(** The node types the table uses. *)
Definition node_types : list string :=
  ["SymbolLiteral"; "NumericLiteral"; "StringLiteral"; "PredicateLookup";
   "Operator"; "VariableArityOperator"; "VariableArityOperatorClose";
   "ArgumentSeparator"; "PrecidenceOperator"; "PrecidenceOperatorClose"].

(** How many of the eight tests a node passes, given what [isLiteral]
    returned. *)
Definition tests_passed (node0 : option Grammar.node) (literal : value) : nat :=
  length (List.filter (fun b : bool => b)
            [isOperator node0; to_boolean literal; isPredicateLookup node0;
             isVaradicFunctionClose node0; isVaradicFunction node0;
             isArgumentSeparator node0; isPrecidenceOperator node0;
             isPrecidenceOperatorClose node0]).

End NodeTests.

(** ** JSON trees *)

(** What a JSON text denotes.  A number is kept as the engine prints it. *)
Inductive json : Type :=
| JNull
| JBool (b : bool)
| JNum (text : string)
| JStr (s : string)
| JArr (items : list json)
| JObj (members : list (string * json)).

Section Trees.

Context {H : Host}.

(** The value has no [toJSON] method, its own or inherited. *)
Definition no_method (v : value) : bool :=
  match has_toJSON v with
  | Ret false => true
  | _ => false
  end.

(** No list, object or function in the value has a [toJSON] method. *)
Fixpoint plain (v : value) : bool :=
  match v with
  | VFun _ _ => no_method v
  | VArr _ elems => no_method v && forallb plain elems
  | VObj _ props =>
      no_method v && forallb (fun p => let '(_, x) := p in plain x) props
  | _ => true
  end.

(** The values built from null, booleans, texts, lists and objects. *)
Fixpoint exact (v : value) : bool :=
  match v with
  | VNull | VBool _ | VStr _ => true
  | VArr _ elems => forallb exact elems
  | VObj _ props => forallb (fun p => let '(_, x) := p in exact x) props
  | _ => false
  end.

(** The tree [JSON.stringify] writes down for a value without [toJSON]
    methods, [None] where it gives undefined.  Null, booleans and texts
    stand for themselves and a finite number for its text; NaN and the
    infinities become null; undefined, a symbol and a function have no
    tree, count as null in a list and are left out of an object. *)
Fixpoint tree (v : value) : option json :=
  match v with
  | VUndefined | VSymbol _ | VFun _ _ => None
  | VNull => Some JNull
  | VBool b => Some (JBool b)
  | VNum x =>
      Some (if is_finite x then JNum (host_number_to_string x) else JNull)
  | VStr s => Some (JStr s)
  | VArr _ elems => Some (JArr (map (fun e => default JNull (tree e)) elems))
  | VObj _ props =>
      Some (JObj
              ((fix members (ps : list (string * value))
                  : list (string * json) :=
                  match ps with
                  | [] => []
                  | (k, e) :: ps' =>
                      match tree e with
                      | Some j => (k, j) :: members ps'
                      | None => members ps'
                      end
                  end) props))
  end.

(** The text of a tree. *)
Fixpoint render (j : json) : string :=
  match j with
  | JNull => "null"
  | JBool b => if b then "true" else "false"
  | JNum text => text
  | JStr s => json_quote s
  | JArr items => "[" +:+ join_comma (map render items) +:+ "]"
  | JObj members =>
      "{" +:+ join_comma
                (map (fun m => let '(k, x) := m in
                               json_quote k +:+ ":" +:+ render x) members)
          +:+ "}"
  end.

(** The characters that end a value inside a text: the comma and the two
    closing brackets. *)
Definition is_delimiter (c : ascii) : bool :=
  Ascii.eqb c ","%char || Ascii.eqb c "]"%char || Ascii.eqb c "}"%char.

(** The characters the text of a value other than a number begins with. *)
Definition opens_value (c : ascii) : bool :=
  Ascii.eqb c "n"%char || Ascii.eqb c "t"%char || Ascii.eqb c "f"%char
  || Ascii.eqb c quote_char || Ascii.eqb c "["%char || Ascii.eqb c "{"%char.

Fixpoint no_delimiter (t : string) : bool :=
  match t with
  | EmptyString => true
  | String c t' => negb (is_delimiter c) && no_delimiter t'
  end.

(** What the text of a number has to be for a JSON text to be read in one
    way only: not empty, not beginning like another value, and free of
    commas and closing brackets (digits, a sign, a point, an exponent). *)
Definition number_text (t : string) : bool :=
  match t with
  | EmptyString => false
  | String c _ => negb (opens_value c) && no_delimiter t
  end.

(** The text is over, or goes on with a delimiter. *)
Definition delimited (r : string) : bool :=
  match r with
  | EmptyString => true
  | String c _ => is_delimiter c
  end.

(** The numbers of the tree have the text of a number. *)
Fixpoint well_formed (j : json) : bool :=
  match j with
  | JNum text => number_text text
  | JArr items => forallb well_formed items
  | JObj members =>
      forallb (fun m => let '(_, x) := m in well_formed x) members
  | _ => true
  end.

(** The first character of the text of a tree, and the sort of the tree. *)
Definition lead (j : json) : ascii :=
  match j with
  | JNull => "n"%char
  | JBool b => if b then "t"%char else "f"%char
  | JNum text =>
      match text with
      | String c _ => c
      | EmptyString => zero
      end
  | JStr _ => quote_char
  | JArr _ => "["%char
  | JObj _ => "{"%char
  end.

Definition kind (j : json) : nat :=
  match j with
  | JNull => 0
  | JBool _ => 1
  | JNum _ => 2
  | JStr _ => 3
  | JArr _ => 4
  | JObj _ => 5
  end.

End Trees.

(** ** The subjects a predicate is made for *)

Section Domains.

Context {H : Host}.

(** The second component of what
    [const [key, predicate] = Array.isArray(entry) ? entry : [entry, Boolean]]
    binds, as a value: the second element of an array, undefined when
    there is none, and [Boolean] for a bare key. *)
Definition entry_predicate (entry : value) : value :=
  match entry with
  | VArr _ elems => default VUndefined (elems !! 1%nat)
  | _ => VFun 0 FBoolean
  end.

(** [in_domain p a]: the subject [a] is one that [val(p)] is made for.
    - [val(v)] for a [v] that is not a function, [Boolean] and the
      predicates of [prim] are made for every subject;
    - a caller-supplied function, for the subjects it answers with a
      boolean;
    - the comparisons with number bounds, for the subjects that convert to
      a number;
    - the predicate of [deep], for the subjects [JSON.stringify] accepts;
    - [not], [and] and [or], for the subjects their arguments are made for;
    - [holds] with at least one argument, for the subjects whose elements
      can be read, each element being one every argument is made for;
    - [obj], for the falsy subjects, and for a truthy subject when every
      entry is a key or an array with a function in second place, the key
      can be read and the value read is one that function is made for. *)
Inductive in_domain : value -> value -> Prop :=
| dom_value (v a : value) :
    typeof v <> "function" -> in_domain v a
| dom_isVal (l : loc) (v a : value) :
    in_domain (VFun l (FIsVal v)) a
| dom_Boolean (l : loc) (a : value) :
    in_domain (VFun l FBoolean) a
| dom_prim (l : loc) (primative : func) (a : value) :
    in_domain (VFun l (Helpers.prim primative)) a
| dom_caller (l : loc) (id : nat) (name : string) (a : value) (b : bool) :
    host_call id a = Ret (VBool b) ->
    in_domain (VFun l (FHost id name)) a
| dom_lt (l : loc) (x : spec_float) (a : value) (n : spec_float) :
    subject_number a = Ret n ->
    in_domain (VFun l (Helpers.lt (VNum x))) a
| dom_lte (l : loc) (x : spec_float) (a : value) (n : spec_float) :
    subject_number a = Ret n ->
    in_domain (VFun l (Helpers.lte (VNum x))) a
| dom_gt (l : loc) (x : spec_float) (a : value) (n : spec_float) :
    subject_number a = Ret n ->
    in_domain (VFun l (Helpers.gt (VNum x))) a
| dom_gte (l : loc) (x : spec_float) (a : value) (n : spec_float) :
    subject_number a = Ret n ->
    in_domain (VFun l (Helpers.gte (VNum x))) a
| dom_btw (l : loc) (x y : spec_float) (a : value) (n : spec_float) :
    subject_number a = Ret n ->
    in_domain (VFun l (Helpers.btw (VNum x) (VNum y))) a
| dom_btwe (l : loc) (x y : spec_float) (a : value) (n : spec_float) :
    subject_number a = Ret n ->
    in_domain (VFun l (Helpers.btwe (VNum x) (VNum y))) a
| dom_deep (l : loc) (v : value) (f : func) (a sa : value) :
    Helpers.deep v = Ret f -> JSON_stringify a = Ret sa ->
    in_domain (VFun l f) a
| dom_not (l : loc) (p a : value) :
    in_domain p a ->
    in_domain (VFun l (Helpers.not p)) a
| dom_and (l : loc) (p q a : value) :
    in_domain p a -> in_domain q a ->
    in_domain (VFun l (Helpers.and p q)) a
| dom_or (l : loc) (p q a : value) :
    in_domain p a -> in_domain q a ->
    in_domain (VFun l (Helpers.or p q)) a
| dom_holds (l : loc) (args : list value) (n : value) (elems : list value) :
    args <> [] -> indexed n = Ret elems ->
    (forall arg item, arg ∈ args -> item ∈ elems -> in_domain arg item) ->
    in_domain (VFun l (Helpers.holds args)) n
| dom_obj (l : loc) (entries : list value) (a : value) :
    (forall entry, entry ∈ entries -> to_boolean a = true ->
       typeof (entry_predicate entry) = "function"
       /\ exists x, get a (fst (entry_parts entry)) = Ret x) ->
    (forall entry x, entry ∈ entries -> to_boolean a = true ->
       get a (fst (entry_parts entry)) = Ret x ->
       in_domain (entry_predicate entry) x) ->
    in_domain (VFun l (Helpers.obj entries)) a.

End Domains.

(** * Properties *)

Section Properties.

Context {H : Host}.

(** ** Runs *)

Lemma res_bind {A B : Type} (m : run A) (f : A -> run B) :
  res (m ≫= f) =
  match res m with
  | Ret x => res (f x)
  | Throw e => Throw e
  end.
Proof. unfold mbind, run_bind. destruct (res m); reflexivity. Qed.

Lemma bind_lift_ret {A B : Type} (x : A) (f : A -> run B) :
  lift (Ret x) ≫= f = f x.
Proof. unfold mbind, run_bind, lift. simpl. destruct (f x); reflexivity. Qed.

Lemma bind_lift_throw {A B : Type} (e : error) (f : A -> run B) :
  lift (Throw e) ≫= f = throw e.
Proof. reflexivity. Qed.

Lemma bind_mret {A B : Type} (x : A) (f : A -> run B) :
  mret x ≫= f = f x.
Proof. apply bind_lift_ret. Qed.

(** ** The order of the numbers *)

Lemma SFltb_lt (x y : spec_float) :
  SFltb x y = true <-> SFcompare x y = Some Lt.
Proof.
  unfold SFltb. destruct (SFcompare x y) as [[ | | ] | ]; split; congruence.
Qed.

Lemma lex_compare_lt_trans e1 m1 e2 m2 e3 m3 :
  lex_compare e1 m1 e2 m2 = Lt -> lex_compare e2 m2 e3 m3 = Lt ->
  lex_compare e1 m1 e3 m3 = Lt.
Proof.
  unfold lex_compare.
  destruct (Z.compare_spec e1 e2), (Z.compare_spec e2 e3),
    (Z.compare_spec e1 e3); try discriminate; try reflexivity; try lia.
  rewrite !Pos.compare_lt_iff. lia.
Qed.

Lemma lex_compare_gt_trans e1 m1 e2 m2 e3 m3 :
  lex_compare e1 m1 e2 m2 = Gt -> lex_compare e2 m2 e3 m3 = Gt ->
  lex_compare e1 m1 e3 m3 = Gt.
Proof.
  unfold lex_compare.
  destruct (Z.compare_spec e1 e2), (Z.compare_spec e2 e3),
    (Z.compare_spec e1 e3); try discriminate; try reflexivity; try lia.
  rewrite !Pos.compare_gt_iff. lia.
Qed.

Lemma SFcompare_finite s1 m1 e1 s2 m2 e2 :
  SFcompare (S754_finite s1 m1 e1) (S754_finite s2 m2 e2) =
  Some (match s1, s2 with
        | true, false => Lt
        | false, true => Gt
        | false, false => lex_compare e1 m1 e2 m2
        | true, true => CompOpp (lex_compare e1 m1 e2 m2)
        end).
Proof.
  unfold lex_compare. simpl.
  destruct s1, s2; try reflexivity; destruct (e1 ?= e2)%Z; reflexivity.
Qed.

(** [<] on binary64 values is transitive. *)
Lemma SFltb_trans (x y z : spec_float) :
  SFltb x y = true -> SFltb y z = true -> SFltb x z = true.
Proof.
  rewrite !SFltb_lt.
  destruct x as [sx | sx | | sx mx ex], y as [sy | sy | | sy my ey],
           z as [sz | sz | | sz mz ez];
    rewrite ?SFcompare_finite;
    try (simpl; discriminate);
    try (destruct sx, sy, sz; simpl; congruence);
    try (destruct sx, sy; simpl; congruence);
    try (destruct sx, sz; simpl; congruence);
    try (destruct sy, sz; simpl; congruence).
  destruct sx, sy, sz; try congruence; intros Hxy Hyz; f_equal;
    injection Hxy as Hxy; injection Hyz as Hyz.
  - apply (f_equal CompOpp) in Hxy, Hyz.
    rewrite CompOpp_involutive in Hxy, Hyz. simpl in Hxy, Hyz.
    rewrite (lex_compare_gt_trans _ _ _ _ _ _ Hxy Hyz). reflexivity.
  - apply (lex_compare_lt_trans _ _ _ _ _ _ Hxy Hyz).
Qed.

(** [<] on binary64 values is irreflexive. *)
Lemma SFltb_irrefl (x : spec_float) : SFltb x x = false.
Proof.
  destruct x as [s | s | | s m e]; try (destruct s; reflexivity);
    try reflexivity.
  unfold SFltb. rewrite SFcompare_finite. unfold lex_compare.
  rewrite Z.compare_refl, Pos.compare_refl. destruct s; reflexivity.
Qed.

Lemma SFltb_asym (x y : spec_float) :
  SFltb x y = true -> SFltb y x = false.
Proof.
  intros Hxy. destruct (SFltb y x) eqn:Hyx; [ | reflexivity].
  rewrite <- (SFltb_irrefl x). symmetry. exact (SFltb_trans _ _ _ Hxy Hyx).
Qed.

Lemma lex_compare_swap e1 m1 e2 m2 :
  lex_compare e2 m2 e1 m1 = CompOpp (lex_compare e1 m1 e2 m2).
Proof.
  unfold lex_compare. rewrite (Z.compare_antisym e1 e2).
  destruct (e1 ?= e2)%Z; simpl; try reflexivity.
  apply Pos.compare_antisym.
Qed.

(** Swapping the operands of a comparison reverses its outcome. *)
Lemma SFcompare_swap (x y : spec_float) :
  SFcompare y x = option_map CompOpp (SFcompare x y).
Proof.
  destruct x as [sx | sx | | sx mx ex], y as [sy | sy | | sy my ey];
    rewrite ?SFcompare_finite;
    try reflexivity; try (destruct sx; reflexivity);
    try (destruct sy; reflexivity); try (destruct sx, sy; reflexivity).
  simpl. rewrite lex_compare_swap.
  destruct sx, sy; simpl; rewrite ?CompOpp_involutive; reflexivity.
Qed.

Lemma SFleb_not_gt (x y : spec_float) :
  SFleb x y = true -> SFltb y x = false.
Proof.
  unfold SFleb, SFltb. rewrite (SFcompare_swap x y).
  destruct (SFcompare x y) as [[ | | ] | ]; simpl; congruence.
Qed.

Lemma SFltb_le (x y : spec_float) : SFltb x y = true -> SFleb x y = true.
Proof.
  unfold SFleb, SFltb. destruct (SFcompare x y) as [[ | | ] | ]; congruence.
Qed.

Lemma inside_ordered (lo hi x : spec_float) :
  inside lo hi x = true -> SFltb lo hi = true.
Proof.
  unfold inside. rewrite andb_true_iff. intros [Hlo Hhi].
  exact (SFltb_trans _ _ _ Hlo Hhi).
Qed.

Lemma inside_unordered (lo hi x : spec_float) :
  SFltb lo hi = false -> inside lo hi x = false.
Proof.
  intros Hn. destruct (inside lo hi x) eqn:Hi; [ | reflexivity].
  apply inside_ordered in Hi. congruence.
Qed.

(** What [btwFn] computes on a number does not depend on the order of the
    bounds. *)
Lemma btw_choice_either (a b x : spec_float) :
  (if SFltb a b then inside a b x else inside b a x) =
  inside a b x || inside b a x.
Proof.
  destruct (SFltb a b) eqn:Hab.
  - rewrite (inside_unordered b a x (SFltb_asym _ _ Hab)).
    rewrite orb_false_r. reflexivity.
  - rewrite (inside_unordered a b x Hab). reflexivity.
Qed.

Lemma btw_choice_smaller (a b x : spec_float) :
  (if SFltb a b then inside a b x else inside b a x) =
  inside (smaller a b) (larger a b) x.
Proof.
  unfold smaller, larger. destruct (SFltb a b) eqn:Hab.
  - rewrite (SFltb_le _ _ Hab). reflexivity.
  - destruct (SFleb a b) eqn:Hle; [ | reflexivity].
    rewrite (inside_unordered a b x Hab).
    apply inside_unordered, SFleb_not_gt, Hle.
Qed.

(** ** Comparisons of a subject with a number *)

Lemma less_than_prim_num_l (m : spec_float) (p : value) :
  less_than_prim (VNum m) p ≫= (fun r => Ret (is_true r)) =
  to_number p ≫= (fun x => Ret (SFltb m x)).
Proof.
  unfold less_than_prim, SFltb.
  destruct p; cbn -[SFcompare]; try reflexivity;
    destruct (SFcompare _ _) as [[ | | ] | ]; reflexivity.
Qed.

Lemma less_than_prim_num_r (m : spec_float) (p : value) :
  less_than_prim p (VNum m) ≫= (fun r => Ret (is_true r)) =
  to_number p ≫= (fun x => Ret (SFltb x m)).
Proof.
  unfold less_than_prim, SFltb.
  destruct p; cbn -[SFcompare]; try reflexivity;
    destruct (SFcompare _ _) as [[ | | ] | ]; reflexivity.
Qed.

Lemma js_gt_num (n : value) (m : spec_float) :
  js_gt n (VNum m) = subject_number n ≫= (fun x => Ret (SFltb m x)).
Proof.
  unfold js_gt, subject_number.
  destruct (to_primitive n) as [p | e]; [ | reflexivity].
  simpl. apply less_than_prim_num_l.
Qed.

Lemma js_lt_num (n : value) (m : spec_float) :
  js_lt n (VNum m) = subject_number n ≫= (fun x => Ret (SFltb x m)).
Proof.
  unfold js_lt, subject_number.
  destruct (to_primitive n) as [p | e]; [ | reflexivity].
  simpl. apply less_than_prim_num_r.
Qed.

Lemma js_lt_nums (a b : spec_float) :
  js_lt (VNum a) (VNum b) = Ret (SFltb a b).
Proof. rewrite js_lt_num. reflexivity. Qed.

(** [btwFn] with two numbers as bounds: the subject is converted to a
    number, which throws or gives the number that is tested. *)
Lemma btwFn_numbers (a b : spec_float) (n : value) :
  apply (Helpers.btw (VNum a) (VNum b)) n =
  lift (subject_number n ≫= (fun x =>
          Ret (VBool (if SFltb a b then inside a b x else inside b a x)))).
Proof.
  simpl. unfold btwFn. rewrite js_lt_nums, bind_lift_ret.
  destruct (SFltb a b); rewrite js_gt_num, js_lt_num;
    (destruct (subject_number n) as [x | e]; [ | reflexivity]);
    simpl; unfold inside;
    match goal with
    | |- context [SFltb ?u x] => destruct (SFltb u x); reflexivity
    end.
Qed.

(** ** btw *)

(** C4: for all numbers [a], [b] and every subject [n], [btw(a, b)(n)] and
    [btw(b, a)(n)] are the same call (same outcome, same calls made), and
    [btw(a, b)(n)] is true exactly when [n] is strictly greater than the
    smaller of the two bounds and strictly less than the larger, which is
    also when it is strictly between them taken in either order. *)
Theorem btw_order_independent (a b : spec_float) (n : value) :
  apply (Helpers.btw (VNum a) (VNum b)) n =
    apply (Helpers.btw (VNum b) (VNum a)) n
  /\ (res (apply (Helpers.btw (VNum a) (VNum b)) n) = Ret (VBool true) <->
      js_gt n (VNum (smaller a b)) = Ret true
      /\ js_lt n (VNum (larger a b)) = Ret true)
  /\ (res (apply (Helpers.btw (VNum a) (VNum b)) n) = Ret (VBool true) <->
      (js_gt n (VNum a) = Ret true /\ js_lt n (VNum b) = Ret true)
      \/ (js_gt n (VNum b) = Ret true /\ js_lt n (VNum a) = Ret true)).
Proof.
  rewrite !btwFn_numbers, !js_gt_num, !js_lt_num.
  destruct (subject_number n) as [x | e]; simpl.
  - split; [ | split; [rewrite btw_choice_smaller | rewrite btw_choice_either]].
    { rewrite (btw_choice_either b a x), (btw_choice_either a b x),
        (orb_comm (inside b a x)). reflexivity. }
    all: unfold inside; split.
    + intros Ht. injection Ht as Ht. apply andb_true_iff in Ht as [-> ->].
      split; reflexivity.
    + intros [Hlo Hhi]. injection Hlo as ->. injection Hhi as ->. reflexivity.
    + intros Ht. injection Ht as Ht.
      apply orb_true_iff in Ht as [Ht | Ht];
        apply andb_true_iff in Ht as [-> ->]; [left | right];
        split; reflexivity.
    + intros [[Hlo Hhi] | [Hlo Hhi]]; injection Hlo as ->;
        injection Hhi as ->; rewrite ?orb_true_r; reflexivity.
  - split; [reflexivity | ].
    split; split; try discriminate.
    + intros [Hlo _]. discriminate.
    + intros [[Hlo _] | [Hlo _]]; discriminate.
Qed.

(** C10, amended: a range whose two bounds coincide accepts no subject.
    The subject is first converted to a number; where that conversion
    throws (a symbol, an object whose conversion throws) the call throws,
    and on every other subject, every number included, the result is
    false. *)
Theorem btw_equal_bounds (a : spec_float) (n : value) :
  apply (Helpers.btw (VNum a) (VNum a)) n =
    lift (subject_number n ≫= (fun _ => Ret (VBool false)))
  /\ res (apply (Helpers.btw (VNum a) (VNum a)) n) <> Ret (VBool true)
  /\ (forall x : spec_float,
        apply (Helpers.btw (VNum a) (VNum a)) (VNum x) = mret (VBool false)).
Proof.
  assert (Hnone : forall x, (if SFltb a a then inside a a x else inside a a x)
                            = false).
  { intros x. rewrite SFltb_irrefl. apply inside_unordered, SFltb_irrefl. }
  split; [ | split].
  - rewrite btwFn_numbers. f_equal.
    destruct (subject_number n) as [x | e]; simpl; [ | reflexivity].
    rewrite Hnone. reflexivity.
  - rewrite btwFn_numbers.
    destruct (subject_number n) as [x | e]; simpl; [ | discriminate].
    rewrite Hnone. discriminate.
  - intros x. rewrite btwFn_numbers. simpl. rewrite Hnone. reflexivity.
Qed.

(** ** Loops *)

Lemma res_for_each_app {A S : Type} (xs ys : list A) (body : S -> A -> run S)
    (s : S) :
  res (for_each (xs ++ ys) body s) =
  match res (for_each xs body s) with
  | Ret s' => res (for_each ys body s')
  | Throw e => Throw e
  end.
Proof.
  revert s. induction xs as [ | x xs IH]; intros s; simpl.
  - reflexivity.
  - rewrite !res_bind. destruct (res (body s x)); [apply IH | reflexivity].
Qed.

Lemma res_for_each_one {A S : Type} (x : A) (body : S -> A -> run S) (s : S) :
  res (for_each [x] body s) = res (body s x).
Proof. simpl. rewrite res_bind. destruct (res (body s x)); reflexivity. Qed.

(** ** holds *)

Section HoldsLoops.

Variable fns : list pred.

Lemma length_marks g l : length (marks g l) = length l.
Proof. apply length_map. Qed.

Lemma marks_app g l1 l2 : marks g (l1 ++ l2) = marks g l1 ++ marks g l2.
Proof. apply map_app. Qed.

(** The inner loop after [m] of its iterations, on an item every
    predicate answers with a boolean. *)
Lemma holds_inner_prefix (item : value) (g : pred -> bool) (m : nat) :
  (forall fn, fn ∈ fns -> exists b, res (fn item) = Ret (VBool b)) ->
  m <= length fns ->
  res (for_each (seq 0 m) (holds_visit fns item) (marks g fns)) =
  Ret (marks (fun fn => g fn || verdict fn item) (take m fns)
       ++ marks g (drop m fns)).
Proof.
  intros Hitem. induction m as [ | m IH]; intros Hm.
  - simpl. rewrite drop_0. reflexivity.
  - rewrite seq_S, res_for_each_app, IH by lia.
    rewrite res_for_each_one. change (0 + m)%nat with m.
    destruct (lookup_lt_is_Some_2 fns m ltac:(lia)) as [fn Hfn].
    rewrite (drop_S _ _ _ Hfn), (take_S_r _ _ _ Hfn), marks_app.
    simpl. rewrite <- app_assoc. simpl.
    set (done := marks (fun fn0 => g fn0 || verdict fn0 item) (take m fns)).
    assert (Hlen : m = length done).
    { unfold done. rewrite length_marks, length_take_le; lia. }
    unfold holds_visit.
    rewrite (list_lookup_middle done _ (VBool (g fn)) m Hlen). simpl.
    destruct (g fn) eqn:Hg; simpl; [reflexivity | ].
    rewrite Hfn, res_bind.
    destruct (Hitem fn (list_elem_of_lookup_2 _ _ _ Hfn)) as [b Hb].
    unfold verdict. rewrite Hb. simpl.
    rewrite insert_app_r_alt by lia.
    replace (m - length done)%nat with 0%nat by lia. reflexivity.
Qed.

(** The inner loop: every predicate not yet satisfied is tried on the
    item. *)
Lemma holds_inner (item : value) (g : pred -> bool) :
  (forall fn, fn ∈ fns -> exists b, res (fn item) = Ret (VBool b)) ->
  res (for_each (seq 0 (length fns)) (holds_visit fns item) (marks g fns)) =
  Ret (marks (fun fn => g fn || verdict fn item) fns).
Proof.
  intros Hitem.
  rewrite (holds_inner_prefix item g (length fns) Hitem) by lia.
  rewrite take_ge, drop_ge by lia. rewrite app_nil_r. reflexivity.
Qed.

(** The outer loop: a predicate is marked when some item satisfies it. *)
Lemma holds_outer (items : list value) (g : pred -> bool) :
  (forall fn item, fn ∈ fns -> item ∈ items ->
                   exists b, res (fn item) = Ret (VBool b)) ->
  res (for_each items
         (fun success item =>
            for_each (seq 0 (length fns)) (holds_visit fns item) success)
         (marks g fns)) =
  Ret (marks (fun fn => g fn || existsb (verdict fn) items) fns).
Proof.
  revert g. induction items as [ | item items IH]; intros g Hpred.
  - simpl. f_equal. apply map_ext. intros fn. rewrite orb_false_r.
    reflexivity.
  - simpl. rewrite res_bind, holds_inner.
    + rewrite IH.
      * f_equal. apply map_ext. intros fn. rewrite orb_assoc. reflexivity.
      * intros fn it Hfn Hit. apply Hpred; [exact Hfn | ].
        apply elem_of_cons. right. exact Hit.
    + intros fn Hfn. apply Hpred; [exact Hfn | ].
      apply elem_of_cons. left. reflexivity.
Qed.

Lemma fold_js_and (g : pred -> bool) (l : list pred) (b : bool) :
  fold_left js_and (marks g l) (VBool b) = VBool (b && forallb g l).
Proof.
  revert b. induction l as [ | fn l IH]; intros b; simpl.
  - rewrite andb_true_r. reflexivity.
  - unfold js_and at 2. simpl. destruct b; simpl.
    + apply IH.
    + rewrite IH. reflexivity.
Qed.

(** [holdsFn] on an array whose items every predicate answers with a
    boolean. *)
Lemma holdsFn_array (l : loc) (elems : list value) :
  fns <> [] ->
  (forall fn item, fn ∈ fns -> item ∈ elems ->
                   exists b, res (fn item) = Ret (VBool b)) ->
  res (holdsFn fns (VArr l elems)) =
  Ret (VBool (forallb (fun fn => existsb (verdict fn) elems) fns)).
Proof.
  intros Hne Hpred. unfold holdsFn, indexed. rewrite bind_lift_ret, res_bind.
  change (map (fun _ : pred => VBool false) fns)
    with (marks (fun _ => false) fns).
  rewrite (holds_outer elems (fun _ => false) Hpred). simpl.
  destruct fns as [ | fn rest]; [contradiction | ]. simpl.
  rewrite fold_js_and. reflexivity.
Qed.

End HoldsLoops.

(** [val(v)(a)] is the call of what [val] returns. *)
Lemma invoke_val (fresh : loc) (v a : value) :
  invoke (Helpers.val fresh v) a = call_val v a.
Proof. destruct v; reflexivity. Qed.

Lemma call_val_value (v a : value) :
  typeof v <> "function" -> call_val v a = mret (VBool (strict_equals a v)).
Proof. destruct v; try reflexivity. intros Hv. contradiction Hv. reflexivity. Qed.

(** The equations of [apply] on the closures with captured predicates. *)
Lemma apply_holds (args : list value) (n : value) :
  apply (Helpers.holds args) n = holdsFn (map call_val args) n.
Proof. reflexivity. Qed.

Lemma apply_obj (entries : list value) (a : value) :
  apply (Helpers.obj entries) a = objFn (map entry_parts entries) a.
Proof. reflexivity. Qed.

Lemma apply_or (lhs rhs a : value) :
  apply (Helpers.or lhs rhs) a = orFn (call_val lhs) (call_val rhs) a.
Proof. reflexivity. Qed.

Lemma apply_and (lhs rhs a : value) :
  apply (Helpers.and lhs rhs) a = andFn (call_val lhs) (call_val rhs) a.
Proof. reflexivity. Qed.

Lemma apply_not (input a : value) :
  apply (Helpers.not input) a = notFn (call_val input) a.
Proof. reflexivity. Qed.

Lemma forallb_call_val (q : pred -> bool) (args : list value) :
  forallb q (map call_val args) = forallb (fun arg => q (call_val arg)) args.
Proof.
  induction args as [ | arg args IH]; simpl; [reflexivity | ].
  rewrite IH. reflexivity.
Qed.

(** [holds] with at least one argument, on an array whose elements every
    argument answers with a boolean. *)
Lemma holds_array (args : list value) (l : loc) (elems : list value) :
  args <> [] ->
  (forall arg item, arg ∈ args -> item ∈ elems ->
                    exists b, res (call_val arg item) = Ret (VBool b)) ->
  res (apply (Helpers.holds args) (VArr l elems)) =
  Ret (VBool (holds_verdict args elems)).
Proof.
  intros Hne Hpred. rewrite apply_holds, holdsFn_array.
  - rewrite forallb_call_val. reflexivity.
  - destruct args; [contradiction | discriminate].
  - intros fn item Hfn Hitem.
    apply list_elem_of_In, in_map_iff in Hfn as [arg [<- Harg]].
    apply Hpred; [apply list_elem_of_In, Harg | exact Hitem].
Qed.

(** Reading the length of an absent subject throws, whatever the
    arguments. *)
Lemma holds_absent (args : list value) (n : value) :
  n = VNull \/ n = VUndefined ->
  apply (Helpers.holds args) n = throw TypeError.
Proof. intros [-> | ->]; reflexivity. Qed.

(** C3: for every non-empty list of arguments, values or predicates
    (functions that answer every element with a boolean), and every
    subject list, of any length, [holds(...args)(subject)] is a boolean,
    and it is true if and only if every argument is satisfied by at least
    one element of the list: for each argument [arg] there is an element
    on which [val(arg)] returns true. *)
Theorem holds_iff (args : list value) (l : loc) (elems : list value)
    (Hargs : args <> [])
    (Hpred : forall arg item, arg ∈ args -> item ∈ elems ->
                              exists b, res (call_val arg item) = Ret (VBool b)) :
  (exists b, res (apply (Helpers.holds args) (VArr l elems)) = Ret (VBool b))
  /\ (res (apply (Helpers.holds args) (VArr l elems)) = Ret (VBool true) <->
      forall arg, arg ∈ args ->
        exists item, item ∈ elems /\ res (call_val arg item) = Ret (VBool true)).
Proof.
  rewrite (holds_array args l elems Hargs Hpred).
  split; [eexists; reflexivity | ].
  unfold holds_verdict. split.
  - intros Ht. injection Ht as Ht. intros arg Harg.
    rewrite forallb_forall in Ht.
    specialize (Ht arg (proj1 (list_elem_of_In _ _) Harg)).
    apply existsb_exists in Ht as [item [Hitem Hv]].
    apply list_elem_of_In in Hitem.
    exists item. split; [exact Hitem | ].
    destruct (Hpred arg item Harg Hitem) as [b Hb].
    unfold verdict in Hv. rewrite Hb in Hv. simpl in Hv. subst b. exact Hb.
  - intros Hall. do 2 f_equal. apply forallb_forall. intros arg Harg.
    apply list_elem_of_In in Harg.
    destruct (Hall arg Harg) as [item [Hitem Hb]].
    apply existsb_exists. exists item.
    split; [apply list_elem_of_In, Hitem | ].
    unfold verdict. rewrite Hb. reflexivity.
Qed.

(** ** val *)

Lemma strict_equals_scalar (a v : value) :
  scalar v = true -> (strict_equals a v = true <-> same_scalar a v).
Proof.
  destruct v; try discriminate; intros _; destruct a; simpl;
    split; try discriminate; try reflexivity; try congruence.
  - intros Hb. apply Bool.eqb_prop in Hb. congruence.
  - intros Hb. injection Hb as ->. apply Bool.eqb_reflx.
  - intros [y [Hy _]]; discriminate.
  - intros [y [Hy _]]; discriminate.
  - intros [y [Hy _]]; discriminate.
  - intros Hx. eexists; split; [reflexivity | exact Hx].
  - intros [y [Hy Hx]]. injection Hy as ->. exact Hx.
  - intros [y [Hy _]]; discriminate.
  - intros [y [Hy _]]; discriminate.
  - intros [y [Hy _]]; discriminate.
  - intros [y [Hy _]]; discriminate.
  - intros [y [Hy _]]; discriminate.
  - intros Hi. apply Nat.eqb_eq in Hi. congruence.
  - intros Hi. injection Hi as ->. apply Nat.eqb_refl.
Qed.

Lemma scalar_not_function (v : value) :
  scalar v = true -> typeof v <> "function".
Proof. destruct v; discriminate. Qed.

(** C5: for every scalar value [v] (a number, a boolean, null, undefined
    or a symbol) and every subject [a], [val(v)(a)] is the boolean
    [a === v]: it is true exactly when [a] is identical to [v]; null and
    undefined are told apart, in both directions. *)
Theorem val_scalar_identity (fresh : loc) (v a : value)
    (Hv : scalar v = true) :
  invoke (Helpers.val fresh v) a = mret (VBool (strict_equals a v))
  /\ (res (invoke (Helpers.val fresh v) a) = Ret (VBool true) <->
      same_scalar a v)
  /\ invoke (Helpers.val fresh VNull) VUndefined = mret (VBool false)
  /\ invoke (Helpers.val fresh VUndefined) VNull = mret (VBool false).
Proof.
  rewrite invoke_val, (call_val_value v a (scalar_not_function v Hv)).
  split; [reflexivity | ]. split; [ | split; reflexivity].
  rewrite <- (strict_equals_scalar a v Hv). simpl.
  split; [intros Ht; injection Ht as ->; reflexivity | intros ->; reflexivity].
Qed.

(** ** not, and, or, entry *)

Lemma entry_parts_entry (l fresh : loc) (name predicate : value) :
  entry_parts (Helpers.entry l fresh name predicate) =
  (name, call_val predicate).
Proof. destruct predicate; reflexivity. Qed.

(** C9: [not], [and], [or] and [entry] accept an argument [v] that is not
    a function: [val] turns it into the closure [isVal] that tests
    [a === v], and that test is what the combinator applies.  So
    [not(v)(a)] is [!(a === v)], [and(v, p)(a)] is [(a === v) && p(a)],
    [or(v, p)(a)] is [(a === v) || p(a)], likewise in the second position,
    and [entry(name, v)] pairs [name] with the test. *)
Theorem combinators_coerce_values (l fresh : loc) (v p a name : value)
    (Hv : typeof v <> "function") :
  Helpers.val fresh v = VFun fresh (FIsVal v)
  /\ apply (FIsVal v) a = mret (VBool (strict_equals a v))
  /\ apply (Helpers.not v) a = mret (VBool (negb (strict_equals a v)))
  /\ apply (Helpers.and v p) a =
       (if strict_equals a v then invoke (Helpers.val fresh p) a
        else mret (VBool false))
  /\ apply (Helpers.or v p) a =
       (if strict_equals a v then mret (VBool true)
        else invoke (Helpers.val fresh p) a)
  /\ apply (Helpers.and p v) a =
       (x ← invoke (Helpers.val fresh p) a;
        if to_boolean x then mret (VBool (strict_equals a v)) else mret x)
  /\ apply (Helpers.or p v) a =
       (x ← invoke (Helpers.val fresh p) a;
        if to_boolean x then mret x else mret (VBool (strict_equals a v)))
  /\ Helpers.entry l fresh name v = VArr l [name; VFun fresh (FIsVal v)]
  /\ entry_parts (Helpers.entry l fresh name v) = (name, isVal v).
Proof.
  assert (Hval : Helpers.val fresh v = VFun fresh (FIsVal v)).
  { destruct v; try reflexivity. contradiction Hv. reflexivity. }
  assert (Hcall : call_val v = isVal v).
  { destruct v; try reflexivity. contradiction Hv. reflexivity. }
  rewrite apply_not, !apply_and, !apply_or, !invoke_val, Hcall.
  unfold Helpers.entry. rewrite Hval.
  unfold notFn, andFn, orFn, isVal. rewrite !bind_mret. simpl.
  repeat split; try reflexivity; destruct (strict_equals a v); reflexivity.
Qed.

(** ** prim *)

Lemma sentinel_name (id : nat) (d : descriptor) :
  func_name (sentinel id d) = descriptor_name d.
Proof. destruct d; reflexivity. Qed.

(** C6: the predicate of the list descriptor is the dedicated check
    [Array.isArray]: true on every list, false on everything else,
    structured objects and numbers included, although a list has the type
    tag of a structured object; the predicate of every other descriptor
    compares [typeof] of the subject with the lowercased name of the
    descriptor. *)
Theorem prim_descriptor (id : nat) (d : descriptor) (a : value) :
  apply (Helpers.prim (sentinel id d)) a =
    mret (VBool (match d with
                 | DArray => is_array a
                 | _ => String.eqb (typeof a) (toLowerCase (descriptor_name d))
                 end))
  /\ (res (apply (Helpers.prim (sentinel id DArray)) a) = Ret (VBool true) <->
      exists l elems, a = VArr l elems)
  /\ (forall l props,
        apply (Helpers.prim (sentinel id DArray)) (VObj l props) =
        mret (VBool false))
  /\ (forall x,
        apply (Helpers.prim (sentinel id DArray)) (VNum x) = mret (VBool false))
  /\ (forall x,
        apply (Helpers.prim (sentinel id DString)) (VNum x) = mret (VBool false))
  /\ (forall l elems,
        apply (Helpers.prim (sentinel id DObject)) (VArr l elems) =
        mret (VBool true)).
Proof.
  split; [destruct d; reflexivity | ].
  split; [ | repeat split; reflexivity].
  simpl. split.
  - destruct a; try discriminate. intros _. eauto.
  - intros [l [elems ->]]. reflexivity.
Qed.

(** ** deep *)

Lemma deepFn_stringified (st a sa : value) :
  JSON_stringify a = Ret sa ->
  apply (FDeepFn st) a = mret (VBool (strict_equals st sa)).
Proof. intros Ha. simpl. unfold deepFn. rewrite Ha. reflexivity. Qed.

(** ** obj *)

Lemma bind_assoc {A B C : Type} (m : run A) (f : A -> run B) (g : B -> run C) :
  (m ≫= f) ≫= g = m ≫= (fun x => f x ≫= g).
Proof.
  unfold mbind, run_bind. destruct m as [cm [x | e]]; simpl; [ | reflexivity].
  destruct (f x) as [cf [y | e]]; simpl; [ | reflexivity].
  rewrite app_assoc. reflexivity.
Qed.

Lemma bind_ext {A B : Type} (m : run A) (f g : A -> run B) :
  (forall x, f x = g x) -> m ≫= f = m ≫= g.
Proof.
  intros Hfg. unfold mbind, run_bind.
  destruct (res m) as [x | e]; [rewrite Hfg | ]; reflexivity.
Qed.

Lemma for_each_app {A S : Type} (xs ys : list A) (body : S -> A -> run S)
    (s : S) :
  for_each (xs ++ ys) body s = for_each xs body s ≫= for_each ys body.
Proof.
  revert s. induction xs as [ | x xs IH]; intros s.
  - rewrite app_nil_l. change (for_each [] body s) with (mret s : run S).
    rewrite bind_mret. reflexivity.
  - change (for_each ((x :: xs) ++ ys) body s)
      with (body s x ≫= for_each (xs ++ ys) body).
    change (for_each (x :: xs) body s) with (body s x ≫= for_each xs body).
    rewrite bind_assoc. apply bind_ext, IH.
Qed.

Lemma bind_keep {A : Type} (m : run A) (f : A -> run A) (v : A) :
  res m = Ret v -> f v = mret v -> m ≫= f = m.
Proof.
  intros Hm Hf. destruct m as [cm rm]. simpl in Hm. subst rm.
  unfold mbind, run_bind. simpl. rewrite Hf. simpl.
  rewrite app_nil_r. reflexivity.
Qed.

Lemma for_each_cons {A S : Type} (x : A) (xs : list A) (body : S -> A -> run S)
    (s : S) :
  for_each (x :: xs) body s = body s x ≫= for_each xs body.
Proof. reflexivity. Qed.

Lemma absent_falsy (a : value) : absent a = true -> to_boolean a = false.
Proof. destruct a; try discriminate; reflexivity. Qed.

Lemma obj_step_eq (a acc key : value) (predicate : pred) :
  obj_step a acc (key, predicate) =
  if to_boolean acc then
    if to_boolean a then x ← lift (get a key); predicate x
    else mret (VBool (to_boolean a))
  else mret acc.
Proof. reflexivity. Qed.

(** Once the accumulator is falsy the remaining entries leave it as it is
    and call nothing. *)
Lemma obj_rejected (a acc : value) (es : list (value * pred)) :
  to_boolean acc = false -> for_each es (obj_step a) acc = mret acc.
Proof.
  intros Hacc. induction es as [ | [key p] es IH]; [reflexivity | ].
  rewrite for_each_cons, obj_step_eq, Hacc, bind_mret.
  exact IH.
Qed.

Lemma obj_loop_accepts (a : value) (es : list (value * pred)) :
  forall acc v,
    res (for_each es (obj_step a) acc) = Ret v -> to_boolean v = true ->
    to_boolean acc = true
    /\ (es <> [] -> to_boolean a = true)
    /\ (forall key p, In (key, p) es ->
          exists x w, get a key = Ret x /\ res (p x) = Ret w
                      /\ to_boolean w = true).
Proof.
  induction es as [ | [key p] es IH]; intros acc v Hres Hv.
  - simpl in Hres. injection Hres as ->.
    split; [exact Hv | ]. split; [congruence | ]. intros key p [].
  - rewrite for_each_cons, obj_step_eq in Hres.
    destruct (to_boolean acc) eqn:Hacc.
    + destruct (to_boolean a) eqn:Ha.
      * destruct (get a key) as [x | e] eqn:Hget.
        -- rewrite bind_lift_ret, res_bind in Hres.
           destruct (res (p x)) as [w | e] eqn:Hp; [ | discriminate].
           destruct (IH w v Hres Hv) as [Hw [_ Hall]].
           split; [reflexivity | ]. split; [reflexivity | ].
           intros key' p' [Heq | Hin].
           ++ injection Heq as <- <-. exists x, w. auto.
           ++ apply Hall, Hin.
        -- rewrite bind_lift_throw in Hres. discriminate.
      * rewrite bind_mret, obj_rejected in Hres by reflexivity.
        injection Hres as <-. discriminate.
    + rewrite bind_mret, obj_rejected in Hres by exact Hacc.
      injection Hres as <-. congruence.
Qed.

Lemma obj_falsy_subject (a : value) (es : list (value * pred)) :
  es <> [] -> to_boolean a = false ->
  for_each es (obj_step a) (VBool true) = mret (VBool false).
Proof.
  intros Hne Ha. destruct es as [ | [key p] es]; [contradiction | ].
  rewrite for_each_cons, obj_step_eq. simpl to_boolean at 1.
  rewrite Ha, bind_mret. apply obj_rejected. reflexivity.
Qed.

(** C2, amended: [obj(...entries)(a)] goes through the entries in order
    and stops calling predicates at the first one that rejects.
    - If it returns a truthy value, [true] in particular, then the
      predicate of every declared key accepted the value of the subject at
      that key, and, when at least one key is declared, the subject is
      truthy, so not absent.
    - With at least one key it is false on every falsy subject, the absent
      ones in particular.
    - Once the keys up to some point have produced a falsy value, that
      value is the result and no predicate of a later key is called. *)
Theorem obj_shape (entries : list value) (a : value) :
  (forall v, res (apply (Helpers.obj entries) a) = Ret v ->
             to_boolean v = true ->
             (entries <> [] -> to_boolean a = true /\ absent a = false)
             /\ (forall entry, entry ∈ entries -> accepts_at a entry))
  /\ (entries <> [] -> to_boolean a = false ->
      apply (Helpers.obj entries) a = mret (VBool false))
  /\ (entries <> [] -> absent a = true ->
      apply (Helpers.obj entries) a = mret (VBool false))
  /\ (forall pre post v,
        entries = pre ++ post ->
        res (apply (Helpers.obj pre) a) = Ret v -> to_boolean v = false ->
        apply (Helpers.obj entries) a = apply (Helpers.obj pre) a).
Proof.
  assert (Hfalsy : entries <> [] -> to_boolean a = false ->
                   apply (Helpers.obj entries) a = mret (VBool false)).
  { intros Hne Ha. rewrite apply_obj. apply obj_falsy_subject; [ | exact Ha].
    destruct entries; [contradiction | discriminate]. }
  split; [ | split; [exact Hfalsy | split]].
  - intros v Hres Hv. rewrite apply_obj in Hres. unfold objFn in Hres.
    destruct (obj_loop_accepts a _ _ _ Hres Hv) as [_ [Ha Hall]].
    split.
    + intros Hne.
      assert (Hat : to_boolean a = true).
      { apply Ha. destruct entries; [contradiction | discriminate]. }
      split; [exact Hat | ].
      destruct (absent a) eqn:Hab; [ | reflexivity].
      apply absent_falsy in Hab. congruence.
    + intros entry Hentry. unfold accepts_at.
      destruct (entry_parts entry) as [key p] eqn:Hparts. simpl.
      apply Hall. apply in_map_iff. exists entry.
      split; [exact Hparts | apply list_elem_of_In, Hentry].
  - intros Hne Hab. apply Hfalsy; [exact Hne | apply absent_falsy, Hab].
  - intros pre post v -> Hpre Hv. rewrite !apply_obj. unfold objFn.
    rewrite map_app, for_each_app.
    rewrite apply_obj in Hpre. unfold objFn in Hpre.
    apply (bind_keep _ _ v Hpre). apply obj_rejected, Hv.
Qed.

End Properties.

(** ** The grammar table *)

Lemma grammar_keys_distinct : NoDup (map fst Grammar.grammar).
Proof. apply (bool_decide_unpack _). vm_compute. reflexivity. Qed.

(** The precedence ranks of the table.  The entry token [:] has rank 100,
    above negation (10), conjunction (20), disjunction (30), between and
    the comparisons (50); these and the entry token are all the nodes of
    type Operator; and negation is ranked below conjunction, conjunction
    below disjunction.  The table only stores the ranks: whether the
    higher or the lower rank binds tighter is for the parser that reads
    [prec] to decide. *)
Lemma table_ranks (lexeme lexeme' : string) :
  Forall (fun t => exists e r, Grammar.rank Grammar.ENTRY lexeme = Some e
                               /\ Grammar.rank t lexeme' = Some r
                               /\ r < e)
         Grammar.combinators
  /\ (forall t mk, Grammar.lookup_rule (Grammar.tokens t) Grammar.grammar = Some mk ->
        Grammar.type (mk lexeme) = "Operator" ->
        t = Grammar.ENTRY \/ t ∈ Grammar.combinators)
  /\ (exists n c d, Grammar.rank Grammar.NOT lexeme = Some n
                    /\ Grammar.rank Grammar.AND lexeme = Some c
                    /\ Grammar.rank Grammar.OR lexeme = Some d
                    /\ n < c /\ c < d).
Proof.
  split; [ | split].
  - unfold Grammar.combinators.
    repeat (apply Forall_cons; split;
            [eexists; eexists; repeat split; [vm_compute; reflexivity .. | lia] | ]).
    apply Forall_nil. trivial.
  - intros t mk Hmk Htype. unfold Grammar.combinators.
    destruct t; vm_compute in Hmk; injection Hmk as <-; simpl in Htype;
      try discriminate; auto; right; repeat constructor.
  - exists 10%nat, 20%nat, 30%nat. repeat split; try reflexivity; lia.
Qed.

(** * The theorems at concrete inputs *)

Section Examples.

Import Helpers.

#[local] Existing Instance bare_host.

Lemma booleans_on_one (arg item : value) :
  arg ∈ [VNum one; always] -> item ∈ [VNum one] ->
  exists b, res (call_val arg item) = Ret (VBool b).
Proof.
  intros Harg Hitem. apply list_elem_of_In in Harg, Hitem. simpl in Harg, Hitem.
  destruct Hitem as [<- | []].
  destruct Harg as [<- | [<- | []]]; eexists; reflexivity.
Defined.

(** C2 fails as stated: with no entry [obj] is true on null; and when the
    predicate of the first key rejects, the predicate of the second key,
    which would throw, is not called. *)
Lemma obj_skips_and_accepts_absent :
  res (apply (obj []) VNull) = Ret (VBool true)
  /\ apply (obj [entry 1 2 (VStr "a") never; entry 3 4 (VStr "b") thrower])
           (VObj 5 [("a", VNum one); ("b", VNum one)])
     = Run [(0%nat, VNum one)] (Ret (VBool false))
  /\ res (invoke thrower (VNum one)) = Throw TypeError
  /\ ~ (forall (H : Host) (entries : list value) (a : value),
          absent a = true ->
          res (@apply H (obj entries) a) = Ret (VBool false)).
Proof.
  repeat split; try reflexivity.
  intros Hclaim. specialize (Hclaim bare_host [] VNull eq_refl).
  discriminate Hclaim.
Qed.

Lemma obj_shape_witness :
  apply (obj [entry 1 2 (VStr "a") never; entry 3 4 (VStr "b") thrower])
        (VObj 5 [("a", VNum one); ("b", VNum one)])
  = apply (obj [entry 1 2 (VStr "a") never])
          (VObj 5 [("a", VNum one); ("b", VNum one)])
  /\ apply (obj [VStr "a"]) VNull = mret (VBool false)
  /\ accepts_at (VObj 5 [("a", VNum one)]) (entry 1 2 (VStr "a") (VNum one)).
Proof.
  split; [ | split].
  - apply (proj2 (proj2 (proj2 (obj_shape _ _)))
             [entry 1 2 (VStr "a") never] [entry 3 4 (VStr "b") thrower]
             (VBool false)); reflexivity.
  - apply (proj1 (proj2 (proj2 (obj_shape [VStr "a"] VNull))));
      [discriminate | reflexivity].
  - apply (proj2 (proj1 (obj_shape [entry 1 2 (VStr "a") (VNum one)]
                           (VObj 5 [("a", VNum one)]))
                   (VBool true) eq_refl eq_refl)).
    apply list_elem_of_In. left. reflexivity.
Defined.

Lemma holds_iff_witness :
  [VNum one; always] <> []
  /\ (res (apply (holds [VNum one; always]) (VArr 0 [VNum one]))
        = Ret (VBool true) <->
      forall arg, arg ∈ [VNum one; always] ->
        exists item, item ∈ [VNum one]
                     /\ res (call_val arg item) = Ret (VBool true)).
Proof.
  split; [discriminate | ].
  apply (proj2 (holds_iff [VNum one; always] 0 [VNum one]
                  ltac:(discriminate) booleans_on_one)).
Defined.

Lemma val_scalar_identity_witness :
  scalar VNull = true
  /\ invoke (val 0 VNull) VUndefined = mret (VBool (strict_equals VUndefined VNull)).
Proof.
  split; [reflexivity | ].
  apply (proj1 (val_scalar_identity 0 VNull VUndefined eq_refl)).
Defined.

Lemma combinators_coerce_values_witness :
  typeof (VNum one) <> "function"
  /\ apply (and (VNum one) always) (VNum one) =
     (if strict_equals (VNum one) (VNum one) then invoke (val 9 always) (VNum one)
      else mret (VBool false)).
Proof.
  assert (Hv : typeof (VNum one) <> "function") by discriminate.
  split; [exact Hv | ].
  apply (proj1 (proj2 (proj2 (proj2
           (combinators_coerce_values 0 9 (VNum one) always (VNum one)
              VUndefined Hv))))).
Defined.

(** C10 fails as stated: on a symbol the comparison throws. *)
Lemma btw_equal_bounds_symbol :
  res (apply (btw (VNum one) (VNum one)) (VSymbol 0)) = Throw TypeError
  /\ ~ (forall (H : Host) (a : spec_float) (n : value),
          res (@apply H (btw (VNum a) (VNum a)) n) = Ret (VBool false)).
Proof.
  split; [reflexivity | ].
  intros Hclaim. specialize (Hclaim bare_host one (VSymbol 0)).
  discriminate Hclaim.
Qed.

(** The two examples of the JSDoc of [holds]: the second is false, as the
    comment says; the first is false too, where the comment says true
    (no element is above 3). *)
Lemma holds_jsdoc_examples :
  apply (holds [num 1; num 2]) (VArr 0 [num 1; num 3])
    = Run [] (Ret (VBool false))
  /\ res (apply (holds [above_three; num 2]) (VArr 0 [num 1; num 2; num 3]))
     = Ret (VBool false).
Proof. split; reflexivity. Qed.

End Examples.

(** * Further properties of helpers.js *)

Section Comparisons.

Context {H : Host}.

(** ** The order of the numbers, continued *)

Lemma SFleb_lt_or_eq (x y : spec_float) :
  SFleb x y = SFltb x y || SFeqb x y.
Proof.
  unfold SFleb, SFltb, SFeqb.
  destruct (SFcompare x y) as [[ | | ] | ]; reflexivity.
Qed.

Lemma SFleb_swap (x y : spec_float) :
  SFleb x y = match SFcompare y x with
              | Some Eq | Some Gt => true
              | _ => false
              end.
Proof.
  unfold SFleb. rewrite (SFcompare_swap y x).
  destruct (SFcompare y x) as [[ | | ] | ]; reflexivity.
Qed.

Lemma comparable_not_nan (x y : spec_float) :
  comparable x y = negb (is_nan x) && negb (is_nan y).
Proof.
  unfold comparable.
  destruct x as [sx | sx | | sx mx ex], y as [sy | sy | | sy my ey];
    reflexivity.
Qed.

Lemma lex_compare_eq e1 m1 e2 m2 :
  lex_compare e1 m1 e2 m2 = Eq -> e1 = e2 /\ m1 = m2.
Proof.
  unfold lex_compare. destruct (Z.compare_spec e1 e2); try discriminate.
  intros Hm. apply Pos.compare_eq in Hm. auto.
Qed.

(** Two numbers that compare equal compare alike with any third. *)
Lemma SFcompare_eq_l (x y z : spec_float) :
  SFcompare x y = Some Eq -> SFcompare x z = SFcompare y z.
Proof.
  destruct x as [sx | sx | | sx mx ex], y as [sy | sy | | sy my ey];
    try discriminate; try (destruct sx; discriminate);
    try (destruct sy; discriminate).
  - intros _. destruct z; reflexivity.
  - destruct sx, sy; try discriminate; reflexivity.
  - rewrite SFcompare_finite. intros Heq.
    assert (Hs : sx = sy /\ lex_compare ex mx ey my = Eq).
    { destruct sx, sy; try discriminate; injection Heq as Heq; split;
        try reflexivity; try exact Heq.
      destruct (lex_compare ex mx ey my); try discriminate; reflexivity. }
    destruct Hs as [-> Hlex]. apply lex_compare_eq in Hlex as [-> ->].
    reflexivity.
Qed.

Lemma SFcompare_eq_r (x y z : spec_float) :
  SFcompare x y = Some Eq -> SFcompare z x = SFcompare z y.
Proof.
  intros Heq. rewrite (SFcompare_swap x z), (SFcompare_swap y z).
  rewrite (SFcompare_eq_l x y z Heq). reflexivity.
Qed.

Lemma SFleb_cases (x y : spec_float) :
  SFleb x y = true -> SFltb x y = true \/ SFcompare x y = Some Eq.
Proof.
  unfold SFleb, SFltb. destruct (SFcompare x y) as [[ | | ] | ]; auto;
    discriminate.
Qed.

(** [<=] on binary64 values is transitive. *)
Lemma SFleb_trans (x y z : spec_float) :
  SFleb x y = true -> SFleb y z = true -> SFleb x z = true.
Proof.
  intros Hxy Hyz.
  destruct (SFleb_cases x y Hxy) as [Hlt | Heq].
  - destruct (SFleb_cases y z Hyz) as [Hlt' | Heq'].
    + apply SFltb_le. exact (SFltb_trans _ _ _ Hlt Hlt').
    + unfold SFleb. rewrite <- (SFcompare_eq_r y z x Heq').
      exact Hxy.
  - unfold SFleb. rewrite (SFcompare_eq_l x y z Heq). exact Hyz.
Qed.

Lemma SFleb_refl (x : spec_float) : is_nan x = false -> SFleb x x = true.
Proof.
  destruct x as [s | s | | s m e]; try discriminate; intros _;
    try (destruct s; reflexivity).
  unfold SFleb. rewrite SFcompare_finite. unfold lex_compare.
  rewrite Z.compare_refl, Pos.compare_refl. destruct s; reflexivity.
Qed.

Lemma SFleb_total (x y : spec_float) :
  comparable x y = true -> SFleb x y = true \/ SFleb y x = true.
Proof.
  unfold comparable. rewrite (SFleb_swap y x). unfold SFleb.
  destruct (SFcompare x y) as [[ | | ] | ]; auto; discriminate.
Qed.

Lemma within_ordered (lo hi x : spec_float) :
  within lo hi x = true -> SFleb lo hi = true.
Proof.
  unfold within. rewrite andb_true_iff. intros [Hlo Hhi].
  exact (SFleb_trans _ _ _ Hlo Hhi).
Qed.

(** Bounds that are neither below one another: they compare equal, or one
    is NaN; [within] is then the same in either order. *)
Lemma within_tied (a b x : spec_float) :
  SFltb a b = false -> SFltb b a = false -> within a b x = within b a x.
Proof.
  intros Hab Hba.
  assert (Hone : forall u v, SFltb u v = false -> SFltb v u = false ->
                             within u v x = true -> within v u x = true).
  { intros u v Huv Hvu Hw.
    assert (Heq : SFcompare u v = Some Eq).
    { destruct (SFleb_cases u v (within_ordered _ _ _ Hw)); congruence. }
    unfold within in *. unfold SFleb in *.
    rewrite <- (SFcompare_eq_l u v x Heq), (SFcompare_eq_r u v x Heq).
    exact Hw. }
  destruct (within a b x) eqn:Hw1, (within b a x) eqn:Hw2; try reflexivity.
  - rewrite (Hone a b Hab Hba Hw1) in Hw2. discriminate.
  - rewrite (Hone b a Hba Hab Hw2) in Hw1. discriminate.
Qed.

Lemma btwe_choice_sym (a b x : spec_float) :
  (if SFltb a b then within a b x else within b a x) =
  (if SFltb b a then within b a x else within a b x).
Proof.
  destruct (SFltb a b) eqn:Hab.
  - rewrite (SFltb_asym _ _ Hab). reflexivity.
  - destruct (SFltb b a) eqn:Hba; [reflexivity | ].
    symmetry. apply within_tied; assumption.
Qed.

Lemma btwe_choice_smaller (a b x : spec_float) :
  (if SFltb a b then within a b x else within b a x) =
  within (smaller a b) (larger a b) x.
Proof.
  unfold smaller, larger. destruct (SFltb a b) eqn:Hab.
  - rewrite (SFltb_le _ _ Hab). reflexivity.
  - destruct (SFleb a b) eqn:Hle; [ | reflexivity].
    symmetry. apply within_tied; [exact Hab | ].
    apply SFleb_not_gt, Hle.
Qed.

(** ** Comparisons of a subject with a number, continued *)

Lemma less_than_prim_num_l_false (m : spec_float) (p : value) :
  less_than_prim (VNum m) p ≫= (fun r => Ret (is_false r)) =
  to_number p ≫= (fun x => Ret (SFleb x m)).
Proof.
  unfold less_than_prim.
  destruct p; cbn -[SFcompare SFleb]; try reflexivity;
    rewrite SFleb_swap; destruct (SFcompare _ _) as [[ | | ] | ]; reflexivity.
Qed.

Lemma less_than_prim_num_r_false (m : spec_float) (p : value) :
  less_than_prim p (VNum m) ≫= (fun r => Ret (is_false r)) =
  to_number p ≫= (fun x => Ret (SFleb m x)).
Proof.
  unfold less_than_prim.
  destruct p; cbn -[SFcompare SFleb]; try reflexivity;
    rewrite SFleb_swap; destruct (SFcompare _ _) as [[ | | ] | ]; reflexivity.
Qed.

Lemma js_le_num (n : value) (m : spec_float) :
  js_le n (VNum m) = subject_number n ≫= (fun x => Ret (SFleb x m)).
Proof.
  unfold js_le, subject_number.
  destruct (to_primitive n) as [p | e]; [ | reflexivity].
  simpl. apply less_than_prim_num_l_false.
Qed.

Lemma js_ge_num (n : value) (m : spec_float) :
  js_ge n (VNum m) = subject_number n ≫= (fun x => Ret (SFleb m x)).
Proof.
  unfold js_ge, subject_number.
  destruct (to_primitive n) as [p | e]; [ | reflexivity].
  simpl. apply less_than_prim_num_r_false.
Qed.

(** The four comparisons and [btweFn] with numbers as bounds: the subject
    is converted to a number, which throws or gives the number tested. *)
Lemma ltFn_number (a : spec_float) (n : value) :
  apply (Helpers.lt (VNum a)) n =
  lift (subject_number n ≫= (fun x => Ret (VBool (SFltb x a)))).
Proof.
  simpl. unfold ltFn. rewrite js_lt_num.
  destruct (subject_number n); reflexivity.
Qed.

Lemma gtFn_number (a : spec_float) (n : value) :
  apply (Helpers.gt (VNum a)) n =
  lift (subject_number n ≫= (fun x => Ret (VBool (SFltb a x)))).
Proof.
  simpl. unfold gtFn. rewrite js_gt_num.
  destruct (subject_number n); reflexivity.
Qed.

Lemma lteFn_number (a : spec_float) (n : value) :
  apply (Helpers.lte (VNum a)) n =
  lift (subject_number n ≫= (fun x => Ret (VBool (SFleb x a)))).
Proof.
  simpl. unfold lteFn. rewrite js_le_num.
  destruct (subject_number n); reflexivity.
Qed.

Lemma gteFn_number (a : spec_float) (n : value) :
  apply (Helpers.gte (VNum a)) n =
  lift (subject_number n ≫= (fun x => Ret (VBool (SFleb a x)))).
Proof.
  simpl. unfold gteFn. rewrite js_ge_num.
  destruct (subject_number n); reflexivity.
Qed.

Lemma btweFn_numbers (a b : spec_float) (n : value) :
  apply (Helpers.btwe (VNum a) (VNum b)) n =
  lift (subject_number n ≫= (fun x =>
          Ret (VBool (if SFltb a b then within a b x else within b a x)))).
Proof.
  simpl. unfold btweFn. rewrite js_lt_nums, bind_lift_ret.
  destruct (SFltb a b); rewrite js_ge_num, js_le_num;
    (destruct (subject_number n) as [x | e]; [ | reflexivity]);
    simpl; unfold within;
    match goal with
    | |- context [SFleb ?u x] => destruct (SFleb u x); reflexivity
    end.
Qed.

End Comparisons.

Section ComparisonProperties.

Context {H : Host}.

(** X1: [btwe(a, b)(n)] and [btwe(b, a)(n)] are the same call, and
    [btwe(a, b)(n)] is true exactly when [n] is at least the smaller of
    the two bounds and at most the larger. *)
Theorem btwe_order_independent (a b : spec_float) (n : value) :
  apply (Helpers.btwe (VNum a) (VNum b)) n =
    apply (Helpers.btwe (VNum b) (VNum a)) n
  /\ (res (apply (Helpers.btwe (VNum a) (VNum b)) n) = Ret (VBool true) <->
      js_ge n (VNum (smaller a b)) = Ret true
      /\ js_le n (VNum (larger a b)) = Ret true).
Proof.
  rewrite !btweFn_numbers, js_ge_num, js_le_num.
  destruct (subject_number n) as [x | e]; simpl.
  - split; [rewrite btwe_choice_sym; reflexivity | ].
    rewrite btwe_choice_smaller. unfold within. split.
    + intros Ht. injection Ht as Ht. apply andb_true_iff in Ht as [-> ->].
      split; reflexivity.
    + intros [Hlo Hhi]. injection Hlo as ->. injection Hhi as ->. reflexivity.
  - split; [reflexivity | ]. split; [discriminate | ].
    intros [Hlo _]. discriminate.
Qed.

(** X2: [btwe] accepts both of its bounds, in either order, when neither
    is NaN; [btw] rejects both of its bounds whatever the bounds are, NaN
    included. *)
Theorem bounds_included_or_excluded (a b : spec_float) :
  (comparable a b = true ->
   apply (Helpers.btwe (VNum a) (VNum b)) (VNum a) = mret (VBool true)
   /\ apply (Helpers.btwe (VNum a) (VNum b)) (VNum b) = mret (VBool true))
  /\ apply (Helpers.btw (VNum a) (VNum b)) (VNum a) = mret (VBool false)
  /\ apply (Helpers.btw (VNum a) (VNum b)) (VNum b) = mret (VBool false).
Proof.
  assert (Hout : forall x, x = a \/ x = b ->
                           inside (smaller a b) (larger a b) x = false).
  { intros x Hx. unfold inside, smaller, larger.
    destruct (SFleb a b); destruct Hx as [-> | ->];
      rewrite ?SFltb_irrefl, ?andb_false_r; reflexivity. }
  rewrite !btweFn_numbers, !btwFn_numbers. simpl.
  rewrite !btwe_choice_smaller, !btw_choice_smaller.
  rewrite !Hout by auto. split; [ | split; reflexivity].
  intros Hab.
  assert (Hin : forall x, x = a \/ x = b ->
                          within (smaller a b) (larger a b) x = true).
  { assert (Hc := Hab).
    rewrite comparable_not_nan in Hab. apply andb_true_iff in Hab as [Ha Hb].
    apply negb_true_iff in Ha, Hb.
    intros x Hx. unfold within, smaller, larger.
    destruct (SFleb a b) eqn:Hle.
    - destruct Hx as [-> | ->]; rewrite ?Hle, ?SFleb_refl; auto.
    - destruct (SFleb_total a b Hc) as [Hle' | Hle']; [congruence | ].
      destruct Hx as [-> | ->]; rewrite ?Hle', ?SFleb_refl; auto. }
  rewrite !Hin by auto. split; reflexivity.
Qed.

(** X3: with bounds that are not NaN, [btwe(a, b)] accepts a number
    exactly when [btw(a, b)] accepts it or it equals one of the bounds. *)
Theorem btwe_is_btw_or_bound (a b x : spec_float)
    (Hab : comparable a b = true) :
  res (apply (Helpers.btwe (VNum a) (VNum b)) (VNum x)) = Ret (VBool true) <->
  res (apply (Helpers.btw (VNum a) (VNum b)) (VNum x)) = Ret (VBool true)
  \/ strict_equals (VNum x) (VNum a) = true
  \/ strict_equals (VNum x) (VNum b) = true.
Proof.
  rewrite btweFn_numbers, btwFn_numbers. simpl.
  rewrite btwe_choice_smaller, btw_choice_smaller.
  assert (Hord : SFleb (smaller a b) (larger a b) = true).
  { unfold smaller, larger. destruct (SFleb a b) eqn:Hle; [exact Hle | ].
    destruct (SFleb_total a b Hab); congruence. }
  assert (Hends : (SFeqb x a = true \/ SFeqb x b = true) <->
                  (SFeqb x (smaller a b) = true \/ SFeqb x (larger a b) = true)).
  { unfold smaller, larger. destruct (SFleb a b); tauto. }
  set (lo := smaller a b) in *. set (hi := larger a b) in *.
  assert (Heq : forall u v, SFeqb u v = true -> SFcompare u v = Some Eq).
  { intros u v. unfold SFeqb.
    destruct (SFcompare u v) as [[ | | ] | ]; congruence. }
  split.
  - intros Ht. injection Ht as Ht. unfold within in Ht.
    apply andb_true_iff in Ht as [Hlo Hhi].
    rewrite SFleb_lt_or_eq in Hlo, Hhi.
    apply orb_true_iff in Hlo, Hhi.
    destruct Hlo as [Hlo | Hlo].
    + destruct Hhi as [Hhi | Hhi].
      * left. unfold inside. rewrite Hlo, Hhi. reflexivity.
      * right. apply Hends. right. exact Hhi.
    + right. apply Hends. left. unfold SFeqb in *.
      rewrite (SFcompare_swap lo x).
      destruct (SFcompare lo x) as [[ | | ] | ]; try discriminate; reflexivity.
  - intros [Ht | Hend].
    + injection Ht as Ht. unfold inside in Ht.
      apply andb_true_iff in Ht as [Hlo Hhi].
      unfold within. rewrite (SFltb_le _ _ Hlo), (SFltb_le _ _ Hhi). reflexivity.
    + assert (Hend' : SFeqb x lo = true \/ SFeqb x hi = true).
      { apply Hends. exact Hend. }
      do 2 f_equal. unfold within, SFleb.
      destruct Hend' as [Hx | Hx]; apply Heq in Hx.
      * rewrite (SFcompare_eq_l x lo hi Hx), (SFcompare_swap x lo), Hx.
        fold (SFleb lo hi). rewrite Hord. reflexivity.
      * rewrite (SFcompare_eq_r x hi lo Hx), Hx.
        fold (SFleb lo hi). rewrite Hord. reflexivity.
Qed.

(** X4: on every subject, [lte(a)] is [lt(a)] or equality with [a], and
    [gte(a)] is [gt(a)] or equality with [a]: the subject is converted to
    a number [x], and the result is [x < a || x == a], respectively
    [a < x || x == a]; where the conversion throws, all four throw. *)
Theorem lte_gte_are_strict_or_equal (a : spec_float) (n : value) :
  apply (Helpers.lte (VNum a)) n =
    lift (subject_number n ≫= (fun x => Ret (VBool (SFltb x a || SFeqb x a))))
  /\ apply (Helpers.gte (VNum a)) n =
    lift (subject_number n ≫= (fun x => Ret (VBool (SFltb a x || SFeqb x a))))
  /\ apply (Helpers.lt (VNum a)) n =
    lift (subject_number n ≫= (fun x => Ret (VBool (SFltb x a))))
  /\ apply (Helpers.gt (VNum a)) n =
    lift (subject_number n ≫= (fun x => Ret (VBool (SFltb a x)))).
Proof.
  rewrite lteFn_number, gteFn_number, ltFn_number, gtFn_number.
  repeat split; try reflexivity.
  - destruct (subject_number n) as [x | e]; [ | reflexivity]. simpl.
    rewrite SFleb_lt_or_eq. reflexivity.
  - destruct (subject_number n) as [x | e]; [ | reflexivity]. simpl.
    rewrite SFleb_lt_or_eq. do 4 f_equal. unfold SFeqb.
    rewrite (SFcompare_swap x a).
    destruct (SFcompare x a) as [[ | | ] | ]; reflexivity.
Qed.

(** X5: on a subject that converts to the number [x], [lt(a)] and
    [gte(a)] are complementary, and so are [gt(a)] and [lte(a)], unless
    [x] or [a] is NaN, in which case all four are false. *)
Theorem comparisons_complement (a : spec_float) (n : value) (x : spec_float)
    (Hx : subject_number n = Ret x) :
  apply (Helpers.gte (VNum a)) n =
    mret (VBool (comparable x a && negb (SFltb x a)))
  /\ apply (Helpers.lt (VNum a)) n = mret (VBool (SFltb x a))
  /\ apply (Helpers.lte (VNum a)) n =
    mret (VBool (comparable x a && negb (SFltb a x)))
  /\ apply (Helpers.gt (VNum a)) n = mret (VBool (SFltb a x))
  /\ (comparable x a = false -> SFltb x a = false /\ SFltb a x = false).
Proof.
  rewrite lteFn_number, gteFn_number, ltFn_number, gtFn_number, Hx. simpl.
  unfold comparable, SFleb, SFltb. rewrite (SFcompare_swap x a).
  destruct (SFcompare x a) as [[ | | ] | ]; simpl; repeat split;
    try reflexivity; discriminate.
Qed.

(** X6: when [a < b], [btw(a, b)] is the conjunction [and(gt(a), lt(b))]
    and [btwe(a, b)] is [and(gte(a), lte(b))]: the same result, the same
    exception, on every subject. *)
Theorem btw_is_and_of_comparisons (a b : spec_float) (l1 l2 : loc) (n : value)
    (Hab : SFltb a b = true) :
  apply (Helpers.btw (VNum a) (VNum b)) n =
    apply (Helpers.and (VFun l1 (Helpers.gt (VNum a)))
                       (VFun l2 (Helpers.lt (VNum b)))) n
  /\ apply (Helpers.btwe (VNum a) (VNum b)) n =
    apply (Helpers.and (VFun l1 (Helpers.gte (VNum a)))
                       (VFun l2 (Helpers.lte (VNum b)))) n.
Proof.
  rewrite btwFn_numbers, btweFn_numbers, !apply_and, Hab. unfold andFn.
  change (call_val (VFun l1 (Helpers.gt (VNum a))))
    with (apply (Helpers.gt (VNum a))).
  change (call_val (VFun l2 (Helpers.lt (VNum b))))
    with (apply (Helpers.lt (VNum b))).
  change (call_val (VFun l1 (Helpers.gte (VNum a))))
    with (apply (Helpers.gte (VNum a))).
  change (call_val (VFun l2 (Helpers.lte (VNum b))))
    with (apply (Helpers.lte (VNum b))).
  rewrite gtFn_number, ltFn_number, gteFn_number, lteFn_number.
  destruct (subject_number n) as [x | e]; [ | split; reflexivity].
  cbn -[SFltb SFleb inside within]. unfold inside, within.
  split; [destruct (SFltb a x) | destruct (SFleb a x)]; reflexivity.
Qed.

End ComparisonProperties.

Section LogicProperties.

Context {H : Host}.

Lemma bind_mret_r {A : Type} (m : run A) : m ≫= (fun x => mret x) = m.
Proof.
  destruct m as [c [x | e]]; unfold mbind, run_bind; simpl;
    rewrite ?app_nil_r; reflexivity.
Qed.

(** A run with its calls and its outcome taken apart. *)
Lemma run_eta {A : Type} (m : run A) : Run (calls m) (res m) = m.
Proof. destruct m; reflexivity. Qed.

Lemma bind_ret_run {A B : Type} (m : run A) (f : A -> run B) (x : A) :
  res m = Ret x -> m ≫= f = Run (calls m ++ calls (f x)) (res (f x)).
Proof. intros Hm. unfold mbind, run_bind. rewrite Hm. reflexivity. Qed.

Lemma bind_throw_run {A B : Type} (m : run A) (f : A -> run B) (e : error) :
  res m = Throw e -> m ≫= f = Run (calls m) (Throw e).
Proof. intros Hm. unfold mbind, run_bind. rewrite Hm. reflexivity. Qed.

(** X7: [and] stops at a left operand that rejects: the result is the
    very value it returned (not [false]) and the right operand is not
    called; when the left operand accepts, the right operand is called
    next and its value is the result; when the left operand throws, so
    does [and], and the right operand is not called. *)
Theorem and_short_circuits (lhs rhs a : value) :
  (forall x, res (call_val lhs a) = Ret x -> to_boolean x = false ->
     apply (Helpers.and lhs rhs) a = call_val lhs a)
  /\ (forall x, res (call_val lhs a) = Ret x -> to_boolean x = true ->
        apply (Helpers.and lhs rhs) a =
        Run (calls (call_val lhs a) ++ calls (call_val rhs a))
            (res (call_val rhs a)))
  /\ (forall e, res (call_val lhs a) = Throw e ->
        apply (Helpers.and lhs rhs) a = call_val lhs a).
Proof.
  rewrite apply_and. unfold andFn. repeat split.
  - intros x Hx Hf. apply (bind_keep _ _ x Hx). rewrite Hf. reflexivity.
  - intros x Hx Ht. rewrite (bind_ret_run _ _ x Hx), Ht. reflexivity.
  - intros e He. rewrite (bind_throw_run _ _ e He), <- He. apply run_eta.
Qed.

(** X8: [or] stops at a left operand that accepts: the result is the very
    value it returned (not [true]) and the right operand is not called;
    when the left operand rejects, the right operand is called next and
    its value is the result; when the left operand throws, so does [or]. *)
Theorem or_short_circuits (lhs rhs a : value) :
  (forall x, res (call_val lhs a) = Ret x -> to_boolean x = true ->
     apply (Helpers.or lhs rhs) a = call_val lhs a)
  /\ (forall x, res (call_val lhs a) = Ret x -> to_boolean x = false ->
        apply (Helpers.or lhs rhs) a =
        Run (calls (call_val lhs a) ++ calls (call_val rhs a))
            (res (call_val rhs a)))
  /\ (forall e, res (call_val lhs a) = Throw e ->
        apply (Helpers.or lhs rhs) a = call_val lhs a).
Proof.
  rewrite apply_or. unfold orFn. repeat split.
  - intros x Hx Ht. apply (bind_keep _ _ x Hx). rewrite Ht. reflexivity.
  - intros x Hx Hf. rewrite (bind_ret_run _ _ x Hx), Hf. reflexivity.
  - intros e He. rewrite (bind_throw_run _ _ e He), <- He. apply run_eta.
Qed.

Lemma notFn_andFn (p q : pred) (a : value) :
  notFn (andFn p q) a = orFn (notFn p) (notFn q) a.
Proof.
  unfold notFn, andFn, orFn. rewrite !bind_assoc. apply bind_ext. intros x.
  destruct (to_boolean x) eqn:Hx; rewrite !bind_mret; cbn [to_boolean negb];
    rewrite ?Hx; reflexivity.
Qed.

Lemma notFn_orFn (p q : pred) (a : value) :
  notFn (orFn p q) a = andFn (notFn p) (notFn q) a.
Proof.
  unfold notFn, andFn, orFn. rewrite !bind_assoc. apply bind_ext. intros x.
  destruct (to_boolean x) eqn:Hx; rewrite !bind_mret; cbn [to_boolean negb];
    rewrite ?Hx; reflexivity.
Qed.

(** X9: De Morgan's laws hold exactly: [not(and(p, q))] and
    [or(not(p), not(q))] return the same value, throw the same exception
    and make the same calls on every subject, and so do [not(or(p, q))]
    and [and(not(p), not(q))], whatever [p] and [q] are. *)
Theorem de_morgan (l1 l2 l3 : loc) (p q a : value) :
  apply (Helpers.not (VFun l1 (Helpers.and p q))) a =
    apply (Helpers.or (VFun l2 (Helpers.not p)) (VFun l3 (Helpers.not q))) a
  /\ apply (Helpers.not (VFun l1 (Helpers.or p q))) a =
    apply (Helpers.and (VFun l2 (Helpers.not p)) (VFun l3 (Helpers.not q))) a.
Proof.
  split.
  - exact (notFn_andFn (call_val p) (call_val q) a).
  - exact (notFn_orFn (call_val p) (call_val q) a).
Qed.

Lemma andFn_assoc (p q r : pred) (a : value) :
  andFn (andFn p q) r a = andFn p (andFn q r) a.
Proof.
  unfold andFn. rewrite bind_assoc. apply bind_ext. intros x.
  destruct (to_boolean x) eqn:Hx; [reflexivity | ].
  rewrite bind_mret, Hx. reflexivity.
Qed.

Lemma orFn_assoc (p q r : pred) (a : value) :
  orFn (orFn p q) r a = orFn p (orFn q r) a.
Proof.
  unfold orFn. rewrite bind_assoc. apply bind_ext. intros x.
  destruct (to_boolean x) eqn:Hx; [ | reflexivity].
  rewrite bind_mret, Hx. reflexivity.
Qed.

(** X10: [and] and [or] are associative: nesting to the left or to the
    right gives the same value, the same exception and the same calls. *)
Theorem and_or_associative (l1 l2 : loc) (p q r a : value) :
  apply (Helpers.and (VFun l1 (Helpers.and p q)) r) a =
    apply (Helpers.and p (VFun l2 (Helpers.and q r))) a
  /\ apply (Helpers.or (VFun l1 (Helpers.or p q)) r) a =
    apply (Helpers.or p (VFun l2 (Helpers.or q r))) a.
Proof.
  split.
  - exact (andFn_assoc (call_val p) (call_val q) (call_val r) a).
  - exact (orFn_assoc (call_val p) (call_val q) (call_val r) a).
Qed.

(** X11: [not(not(p))] is [p] with its result turned into a boolean, so it
    is [p] only for a [p] that returns booleans; a third [not] gives
    [not(p)] back; and [not] returns a boolean whenever [p] returns. *)
Theorem double_negation (l1 l2 : loc) (p a : value) :
  apply (Helpers.not (VFun l1 (Helpers.not p))) a =
    (x ← call_val p a; mret (VBool (to_boolean x)))
  /\ apply (Helpers.not (VFun l1 (Helpers.not (VFun l2 (Helpers.not p))))) a =
    apply (Helpers.not p) a
  /\ (forall x, res (call_val p a) = Ret x ->
        res (apply (Helpers.not p) a) = Ret (VBool (negb (to_boolean x))))
  /\ (forall b, res (call_val p a) = Ret (VBool b) ->
        apply (Helpers.not (VFun l1 (Helpers.not p))) a = call_val p a).
Proof.
  assert (Hnn : apply (Helpers.not (VFun l1 (Helpers.not p))) a =
                (x ← call_val p a; mret (VBool (to_boolean x)))).
  { rewrite apply_not.
    change (call_val (VFun l1 (Helpers.not p))) with (notFn (call_val p)).
    unfold notFn.
    rewrite bind_assoc. apply bind_ext. intros x. rewrite bind_mret.
    simpl. rewrite negb_involutive. reflexivity. }
  split; [exact Hnn | ]. split; [ | split].
  - change (notFn (notFn (notFn (call_val p))) a = notFn (call_val p) a).
    unfold notFn. rewrite !bind_assoc. apply bind_ext. intros x.
    rewrite !bind_mret. simpl. rewrite negb_involutive. reflexivity.
  - intros x Hx. rewrite apply_not. unfold notFn. rewrite res_bind, Hx.
    reflexivity.
  - intros b Hb. rewrite Hnn. apply (bind_keep _ _ (VBool b) Hb). reflexivity.
Qed.

End LogicProperties.

Section HoldsProperties.

Context {H : Host}.

Lemma for_each_idle {A S : Type} (xs : list A) (body : S -> A -> run S) (s : S) :
  (forall x, body s x = mret s) -> for_each xs body s = mret s.
Proof.
  intros Hidle. induction xs as [ | x xs IH]; [reflexivity | ].
  rewrite for_each_cons, Hidle, bind_mret. exact IH.
Qed.

(** X12: [holds] with no argument never returns: on a list, whatever its
    elements, the [reduce] of the empty [success] array throws a
    TypeError; on any other subject either reading its elements throws or
    that [reduce] does; and nothing is called. *)
Theorem holds_no_arguments_throws (n : value) :
  (forall l elems, n = VArr l elems ->
     apply (Helpers.holds []) n = throw TypeError)
  /\ (exists e, res (apply (Helpers.holds []) n) = Throw e)
  /\ calls (apply (Helpers.holds []) n) = [].
Proof.
  assert (Hrun : apply (Helpers.holds []) n =
                 match indexed n with
                 | Ret _ => throw TypeError
                 | Throw e => throw e
                 end).
  { rewrite apply_holds. unfold holdsFn.
    destruct (indexed n) as [items | e]; [ | reflexivity].
    rewrite bind_lift_ret. simpl map.
    rewrite (for_each_idle items _ []) by reflexivity.
    rewrite bind_mret. reflexivity. }
  rewrite Hrun. split; [ | split].
  - intros l elems ->. reflexivity.
  - destruct (indexed n); eexists; reflexivity.
  - destruct (indexed n); reflexivity.
Qed.

(** X13: on the empty list [holds] with at least one argument is false,
    and no argument is called. *)
Theorem holds_empty_list (args : list value) (l : loc) (Hargs : args <> []) :
  apply (Helpers.holds args) (VArr l []) = mret (VBool false).
Proof.
  rewrite apply_holds. unfold holdsFn, indexed.
  rewrite bind_lift_ret. change (for_each [] ?b ?s) with (mret s : run _).
  rewrite bind_mret.
  destruct args as [ | arg args]; [contradiction | ].
  change (map (fun _ : pred => VBool false) (map call_val (arg :: args)))
    with (marks (fun _ => false) (map call_val (arg :: args))).
  simpl. unfold reduce_and. rewrite fold_js_and. reflexivity.
Qed.

Lemma forallb_perm {A : Type} (f : A -> bool) (l l' : list A) :
  l ≡ₚ l' -> forallb f l = forallb f l'.
Proof.
  induction 1 as [ | x l l' _ IH | x y l | l l' l'' _ IH1 _ IH2]; simpl.
  - reflexivity.
  - rewrite IH. reflexivity.
  - destruct (f x), (f y); reflexivity.
  - congruence.
Qed.

Lemma existsb_perm {A : Type} (f : A -> bool) (l l' : list A) :
  l ≡ₚ l' -> existsb f l = existsb f l'.
Proof.
  induction 1 as [ | x l l' _ IH | x y l | l l' l'' _ IH1 _ IH2]; simpl.
  - reflexivity.
  - rewrite IH. reflexivity.
  - destruct (f x), (f y); reflexivity.
  - congruence.
Qed.

Lemma forallb_pointwise {A : Type} (f g : A -> bool) (l : list A) :
  (forall x, f x = g x) -> forallb f l = forallb g l.
Proof.
  intros Hfg. induction l as [ | x l IH]; [reflexivity | ].
  simpl. rewrite Hfg, IH. reflexivity.
Qed.

Lemma holds_verdict_perm (args args' elems elems' : list value) :
  args ≡ₚ args' -> elems ≡ₚ elems' ->
  holds_verdict args elems = holds_verdict args' elems'.
Proof.
  intros Hargs Helems. unfold holds_verdict.
  rewrite (forallb_perm _ _ _ Hargs). apply forallb_pointwise.
  intros arg. apply existsb_perm, Helems.
Qed.

(** X14: the result of [holds] does not depend on the order of the
    elements of the list, nor on the order of the arguments. *)
Theorem holds_order_independent (args args' : list value) (l l' : loc)
    (elems elems' : list value)
    (Hargs : args <> [])
    (Hpred : forall arg item, arg ∈ args -> item ∈ elems ->
                              exists b, res (call_val arg item) = Ret (VBool b))
    (Hpa : args ≡ₚ args') (Hpe : elems ≡ₚ elems') :
  res (apply (Helpers.holds args') (VArr l' elems')) =
  res (apply (Helpers.holds args) (VArr l elems)).
Proof.
  rewrite (holds_array args l elems Hargs Hpred).
  rewrite (holds_array args' l' elems').
  - rewrite (holds_verdict_perm _ _ _ _ Hpa Hpe). reflexivity.
  - intros ->. apply Permutation_nil_r in Hpa. contradiction.
  - intros arg item Harg Hitem. apply Hpred.
    + rewrite Hpa. exact Harg.
    + rewrite Hpe. exact Hitem.
Qed.

(** A loop whose body changes nothing at any of its items makes no call. *)
Lemma for_each_idle_in {A S : Type} (xs : list A) (body : S -> A -> run S)
    (s : S) :
  (forall x, In x xs -> body s x = mret s) -> for_each xs body s = mret s.
Proof.
  intros Hidle. induction xs as [ | x xs IH]; [reflexivity | ].
  rewrite for_each_cons, (Hidle x) by (left; reflexivity).
  rewrite bind_mret. apply IH. intros y Hy. apply Hidle. right. exact Hy.
Qed.

(** What every iteration that returns preserves holds when the loop
    returns. *)
Lemma for_each_preserves {A S : Type} (P : S -> Prop) (xs : list A)
    (body : S -> A -> run S) :
  (forall s x s', P s -> res (body s x) = Ret s' -> P s') ->
  forall s s', P s -> res (for_each xs body s) = Ret s' -> P s'.
Proof.
  intros Hstep. induction xs as [ | x xs IH]; intros s s' Hs Hres.
  - injection Hres as <-. exact Hs.
  - rewrite for_each_cons, res_bind in Hres.
    destruct (res (body s x)) as [s1 | e] eqn:Hb; [ | discriminate].
    exact (IH s1 s' (Hstep s x s1 Hs Hb) Hres).
Qed.

(** [success] keeps its length. *)
Lemma holds_visit_length (fns : list pred) (item : value) (s s' : list value)
    (j : nat) :
  res (holds_visit fns item s j) = Ret s' -> length s' = length s.
Proof.
  unfold holds_visit.
  destruct (negb (to_boolean (default VUndefined (s !! j)))).
  - destruct (fns !! j) as [fn | ]; [ | discriminate].
    rewrite res_bind.
    destruct (res (if to_boolean (default VUndefined (s !! j))
                   then mret (default VUndefined (s !! j)) else fn item))
      as [v | e]; [ | discriminate].
    intros Hs. injection Hs as <-. apply length_insert.
  - intros Hs. injection Hs as <-. reflexivity.
Qed.

Lemma holds_loops_length (fns : list pred) (items : list value)
    (s s' : list value) :
  res (for_each items
         (fun success item =>
            for_each (seq 0 (length fns)) (holds_visit fns item) success) s)
  = Ret s' ->
  length s' = length s.
Proof.
  apply (for_each_preserves (fun t => length t = length s)); [ | reflexivity].
  intros t item t' Ht.
  apply (for_each_preserves (fun u => length u = length s)); [ | exact Ht].
  intros u j u' Hu Hvisit. rewrite (holds_visit_length _ _ _ _ _ Hvisit).
  exact Hu.
Qed.

(** A truthy [reduce] means that every element is truthy. *)
Lemma fold_js_and_truthy (rest : list value) (s : value) :
  to_boolean (fold_left js_and rest s) = true ->
  Forall (fun x => to_boolean x = true) (s :: rest).
Proof.
  revert s. induction rest as [ | r rest IH]; intros s Hv.
  - constructor; [exact Hv | constructor].
  - simpl in Hv. apply IH in Hv.
    apply Forall_cons in Hv as [Hsr Hrest]. unfold js_and in Hsr.
    destruct (to_boolean s) eqn:Hs.
    + constructor; [exact Hs | ]. constructor; [exact Hsr | exact Hrest].
    + congruence.
Qed.

(** Once every argument is satisfied the loops call nothing. *)
Lemma holds_loops_idle (fns : list pred) (items : list value) (s : list value) :
  length s = length fns -> Forall (fun x => to_boolean x = true) s ->
  for_each items
    (fun success item =>
       for_each (seq 0 (length fns)) (holds_visit fns item) success) s
  = mret s.
Proof.
  intros Hlen Hall. apply for_each_idle. intros item.
  apply for_each_idle_in. intros j Hj. apply in_seq in Hj.
  destruct (lookup_lt_is_Some_2 s j ltac:(lia)) as [x Hx].
  unfold holds_visit. rewrite Hx. simpl.
  rewrite Forall_forall in Hall.
  rewrite (Hall x (list_elem_of_lookup_2 _ _ _ Hx)). reflexivity.
Qed.

(** X15: for two non-empty lists of arguments that answer every element
    with a boolean, [holds] of the two lists put together is the
    conjunction of [holds] of each.  For any arguments: once [holds] has
    returned a truthy value on a list, it does the same on every list that
    continues it: the same result, and no call on the added elements. *)
Theorem holds_splits_and_grows (args1 args2 args : list value) (l l' : loc)
    (elems more : list value) :
  (args1 <> [] -> args2 <> [] ->
   (forall arg item, arg ∈ args1 ++ args2 -> item ∈ elems ->
                     exists b, res (call_val arg item) = Ret (VBool b)) ->
   exists b1 b2,
     res (apply (Helpers.holds args1) (VArr l elems)) = Ret (VBool b1)
     /\ res (apply (Helpers.holds args2) (VArr l elems)) = Ret (VBool b2)
     /\ res (apply (Helpers.holds (args1 ++ args2)) (VArr l elems)) =
        Ret (VBool (b1 && b2)))
  /\ (forall v, res (apply (Helpers.holds args) (VArr l elems)) = Ret v ->
        to_boolean v = true ->
        apply (Helpers.holds args) (VArr l' (elems ++ more)) =
        apply (Helpers.holds args) (VArr l elems)).
Proof.
  split.
  - intros H1 H2 Hpred.
    assert (Hsub : forall args0,
               (forall arg, arg ∈ args0 -> arg ∈ args1 ++ args2) ->
               args0 <> [] ->
               res (apply (Helpers.holds args0) (VArr l elems)) =
               Ret (VBool (holds_verdict args0 elems))).
    { intros args0 Ha Hne. apply holds_array; [exact Hne | ].
      intros arg item Harg Hitem. apply Hpred; auto. }
    exists (holds_verdict args1 elems), (holds_verdict args2 elems).
    rewrite !Hsub; auto.
    + unfold holds_verdict. rewrite forallb_app. auto.
    + intros ?; destruct args1; [contradiction | discriminate].
    + intros arg Ha. apply elem_of_app. right. exact Ha.
    + intros arg Ha. apply elem_of_app. left. exact Ha.
  - intros v Hv Ht. rewrite !apply_holds in *. unfold holdsFn, indexed in *.
    rewrite !bind_lift_ret in *.
    set (fns := map call_val args) in *.
    set (outer := fun (success : list value) (item : value) =>
                    for_each (seq 0 (length fns)) (holds_visit fns item)
                      success) in *.
    set (start := map (fun _ : pred => VBool false) fns) in *.
    rewrite res_bind in Hv.
    destruct (res (for_each elems outer start)) as [s | e] eqn:Hs;
      [ | discriminate].
    assert (Hall : Forall (fun x => to_boolean x = true) s).
    { destruct s as [ | s0 rest]; [discriminate | ].
      simpl in Hv. injection Hv as <-. apply fold_js_and_truthy, Ht. }
    assert (Hlen : length s = length fns).
    { rewrite (holds_loops_length fns elems start s Hs).
      unfold start. apply length_map. }
    assert (Hidle : for_each more outer s = mret s).
    { apply (holds_loops_idle fns more s Hlen Hall). }
    rewrite for_each_app, bind_assoc.
    rewrite !(bind_ret_run (for_each elems outer start) _ s Hs).
    rewrite Hidle, bind_mret. reflexivity.
Qed.

(** The inner loop for a single predicate. *)
Lemma holds_inner_single (fn : pred) (item s : value) :
  for_each (seq 0 1) (holds_visit [fn] item) [s] =
  if to_boolean s then mret [s] else v ← fn item; mret [v].
Proof.
  change (seq 0 1) with [0%nat]. rewrite for_each_cons.
  change (for_each [] ?b) with (fun s0 : list value => mret s0 : run _).
  rewrite bind_mret_r. unfold holds_visit. simpl.
  destruct (to_boolean s); reflexivity.
Qed.

(** X16: a caller-supplied function given to [holds] alone is called on
    the elements in order, up to and including the first one it accepts,
    and on none after it; the result is the value it returned there. *)
Theorem holds_stops_at_first_match (id : nat) (name : string) (lf l : loc)
    (before after : list value) (x w : value)
    (Hbefore : forall y, y ∈ before ->
                 exists v, host_call id y = Ret v /\ to_boolean v = false)
    (Hx : host_call id x = Ret w) (Hw : to_boolean w = true) :
  apply (Helpers.holds [VFun lf (FHost id name)])
        (VArr l (before ++ x :: after)) =
  Run (map (fun y => (id, y)) (before ++ [x])) (Ret w).
Proof.
  rewrite apply_holds. unfold holdsFn, indexed. rewrite bind_lift_ret.
  cbn [map length call_val apply].
  set (outer := fun (success : list value) (item : value) =>
                  for_each (seq 0 1) (holds_visit [call_host id] item) success).
  assert (Hout : forall s item,
            outer [s] item =
            if to_boolean s then mret [s]
            else v ← call_host id item; mret [v]).
  { intros s item. apply holds_inner_single. }
  assert (Hpre : forall s, to_boolean s = false ->
            exists s', to_boolean s' = false /\
              for_each before outer [s] =
              Run (map (fun y => (id, y)) before) (Ret [s'])).
  { clear Hx. induction before as [ | y ys IH]; intros s Hs.
    - exists s. split; [exact Hs | reflexivity].
    - destruct (Hbefore y) as [v [Hv Hvf]]; [left | ].
      destruct (IH (fun z Hz => Hbefore z (list_elem_of_further _ _ _ Hz)) v Hvf)
        as [s' [Hs' Hrun]].
      exists s'. split; [exact Hs' | ].
      rewrite for_each_cons, Hout, Hs.
      unfold call_host. unfold mbind at 2, run_bind. simpl. rewrite Hv. simpl.
      unfold mbind, run_bind. simpl. rewrite Hrun. reflexivity. }
  assert (Hpost : forall s, to_boolean s = true ->
            for_each after outer [s] = mret [s]).
  { intros s Hs. apply for_each_idle. intros item.
    rewrite Hout, Hs. reflexivity. }
  destruct (Hpre (VBool false) eq_refl) as [s' [Hs' Hrun]].
  rewrite for_each_app, Hrun, bind_assoc.
  rewrite (bind_ret_run (Run (map (fun y => (id, y)) before) (Ret [s'])) _ [s']
             eq_refl).
  cbn [calls res].
  rewrite for_each_cons, Hout, Hs'. unfold call_host. rewrite Hx.
  unfold mbind, run_bind. cbn [calls res mret run_ret].
  rewrite (Hpost w Hw). cbn [calls res mret run_ret reduce_and fold_left].
  rewrite !app_nil_r, map_app. reflexivity.
Qed.

End HoldsProperties.

Section ObjProperties.

Context {H : Host}.

Lemma objFn_one (key : value) (predicate : pred) (a : value) :
  objFn [(key, predicate)] a =
  if to_boolean a then x ← lift (get a key); predicate x
  else mret (VBool false).
Proof.
  unfold objFn. rewrite for_each_cons, obj_step_eq.
  change (for_each [] ?b) with (fun s0 : value => mret s0 : run _).
  rewrite bind_mret_r. simpl to_boolean at 1.
  destruct (to_boolean a); reflexivity.
Qed.

(** X17: on an object, an entry built by [entry(key, p)] applies [val(p)]
    to the own property of that name, so a value [p] is compared with it
    by [===]; a bare key tests that the property is truthy; and a key the
    object does not own is looked up in what the object inherits. *)
Theorem obj_tests_own_property (l l1 l2 : loc) (props : list (string * value))
    (k : string) (p : value) :
  (forall x, assoc k props = Some x ->
     apply (Helpers.obj [Helpers.entry l1 l2 (VStr k) p]) (VObj l props) =
       call_val p x
     /\ apply (Helpers.obj [VStr k]) (VObj l props) = mret (VBool (to_boolean x))
     /\ (typeof p <> "function" ->
         apply (Helpers.obj [Helpers.entry l1 l2 (VStr k) p]) (VObj l props) =
         mret (VBool (strict_equals x p))))
  /\ (assoc k props = None ->
      apply (Helpers.obj [Helpers.entry l1 l2 (VStr k) p]) (VObj l props) =
      (x ← lift (host_inherited (VObj l props) (KStr k)); call_val p x)).
Proof.
  assert (Hget : get (VObj l props) (VStr k) =
                 match assoc k props with
                 | Some x => Ret x
                 | None => host_inherited (VObj l props) (KStr k)
                 end) by reflexivity.
  rewrite !apply_obj. cbn [map]. rewrite entry_parts_entry.
  change (entry_parts (VStr k)) with (VStr k, BooleanFn).
  rewrite !objFn_one. cbn [to_boolean]. rewrite Hget.
  split.
  - intros x Hx. rewrite Hx, !bind_lift_ret.
    repeat split; try reflexivity.
    intros Hp. apply call_val_value, Hp.
  - intros Hnone. rewrite Hnone. reflexivity.
Qed.

(** X18: an entry that is an array without a function in second place
    makes [obj] throw once it is reached, which is on a truthy subject: a
    TypeError after the property has been read, or what reading the
    property throws.  On a falsy subject, null and undefined included,
    [obj] returns false, and after an earlier key that rejected it returns
    what that key returned: the entry is not reached, nothing is read and
    nothing is thrown. *)
Theorem obj_malformed_entry (l0 : loc) (elems : list value) (a : value)
    (earlier : list value)
    (Hshape : forall second, elems !! 1%nat = Some second ->
                             is_callable second = false) :
  (to_boolean a = true ->
   (exists e, apply (Helpers.obj [VArr l0 elems]) a = throw e)
   /\ (forall x, get a (default VUndefined (elems !! 0%nat)) = Ret x ->
         apply (Helpers.obj [VArr l0 elems]) a = throw TypeError))
  /\ (to_boolean a = false ->
      apply (Helpers.obj [VArr l0 elems]) a = mret (VBool false))
  /\ (forall v, res (apply (Helpers.obj earlier) a) = Ret v ->
        to_boolean v = false ->
        apply (Helpers.obj (earlier ++ [VArr l0 elems])) a =
        apply (Helpers.obj earlier) a).
Proof.
  assert (Hparts : entry_parts (VArr l0 elems) =
                   (default VUndefined (elems !! 0%nat), not_callable)).
  { destruct elems as [ | key [ | second rest]]; try reflexivity.
    specialize (Hshape second eq_refl).
    destruct second; try reflexivity. discriminate. }
  split; [ | split].
  - intros Ha. rewrite apply_obj. cbn [map]. rewrite Hparts, objFn_one, Ha.
    split.
    + destruct (get a (default VUndefined (elems !! 0%nat))) as [x | e];
        eexists; reflexivity.
    + intros x ->. reflexivity.
  - intros Ha. rewrite apply_obj. cbn [map]. rewrite Hparts, objFn_one, Ha.
    reflexivity.
  - intros v Hv Hf. rewrite apply_obj in Hv. rewrite !apply_obj.
    unfold objFn in *. rewrite map_app, for_each_app.
    apply (bind_keep _ _ v Hv). apply obj_rejected, Hf.
Qed.

Lemma obj_loop_truthy_start (a acc : value) (es : list (value * pred)) :
  es <> [] -> to_boolean acc = true ->
  for_each es (obj_step a) acc = for_each es (obj_step a) (VBool true).
Proof.
  intros Hne Hacc. destruct es as [ | [key p] es]; [contradiction | ].
  rewrite !for_each_cons, !obj_step_eq, Hacc. reflexivity.
Qed.

(** X19: the shape of two lists of entries put together is the conjunction
    of the two shapes: [obj(...es1, ...es2)] is [and(obj(...es1),
    obj(...es2))] on every subject, provided [es2] is not empty. *)
Theorem obj_append_is_and (l1 l2 : loc) (es1 es2 : list value) (a : value)
    (Hes2 : es2 <> []) :
  apply (Helpers.obj (es1 ++ es2)) a =
  apply (Helpers.and (VFun l1 (Helpers.obj es1)) (VFun l2 (Helpers.obj es2))) a.
Proof.
  rewrite apply_and, apply_obj. unfold andFn.
  change (call_val (VFun l1 (Helpers.obj es1)))
    with (objFn (map entry_parts es1)).
  change (call_val (VFun l2 (Helpers.obj es2)))
    with (objFn (map entry_parts es2)).
  unfold objFn. rewrite map_app, for_each_app. apply bind_ext. intros x.
  destruct (to_boolean x) eqn:Hx.
  - apply obj_loop_truthy_start; [ | exact Hx].
    destruct es2; [contradiction | discriminate].
  - apply obj_rejected, Hx.
Qed.

End ObjProperties.

Section PrimProperties.

Context {H : Host}.

(** X20: which values each descriptor's predicate accepts: [Array] the
    lists, [Boolean] the booleans, [Number] the numbers (NaN included),
    [Symbol] the symbols, [String] the texts, [Function] the functions,
    [Object] the objects, the lists and null, and [BigInt] none of the
    values of this universe. *)
Theorem prim_accepts (id : nat) (d : descriptor) (a : value) :
  apply (Helpers.prim (sentinel id d)) a = mret (VBool (descriptor_accepts d a)).
Proof. destruct d, a; reflexivity. Qed.

End PrimProperties.

Section DeepProperties.

Context {H : Host}.

Lemma stringify_same_text (v a : value) :
  serialize v = serialize a -> JSON_stringify v = JSON_stringify a.
Proof. intros Hs. unfold JSON_stringify. rewrite Hs. reflexivity. Qed.

Lemma stringify_self_equal (v st : value) :
  JSON_stringify v = Ret st -> strict_equals st st = true.
Proof.
  unfold JSON_stringify. destruct (serialize v) as [[s | ] | e];
    try discriminate; intros Hst; injection Hst as <-; simpl;
    [apply String.eqb_refl | reflexivity].
Qed.

(** [deep(v)] accepts every subject with the same JSON text as [v]. *)
Lemma deep_accepts_same_text (v a : value) (f : func) :
  serialize v = serialize a -> Helpers.deep v = Ret f ->
  apply f a = mret (VBool true).
Proof.
  intros Hs Hf. unfold Helpers.deep in Hf.
  destruct (JSON_stringify v) as [st | e] eqn:Hv; [ | discriminate].
  injection Hf as <-.
  rewrite (deepFn_stringified st a st).
  - rewrite (stringify_self_equal v st Hv). reflexivity.
  - rewrite <- (stringify_same_text v a Hs). exact Hv.
Qed.

Section Addresses.

Hypothesis Hlookup : forall v, has_toJSON (erase v) = has_toJSON v.
Hypothesis Htext : forall v, host_to_json (erase v) = host_to_json v.

Lemma serialize_erase : forall v, serialize (erase v) = serialize v.
Proof.
  fix IH 1. intros v.
  destruct v as [ | | b | x | s | i | l f | l elems | l props];
    try reflexivity.
  - generalize (Hlookup (VFun l f)), (Htext (VFun l f)).
    simpl. intros -> ->. reflexivity.
  - generalize (Hlookup (VArr l elems)), (Htext (VArr l elems)).
    simpl. intros -> ->.
    destruct (has_toJSON (VArr l elems)) as [[ | ] | e]; try reflexivity.
    match goal with
    | |- context [?items (map erase elems)] =>
        assert (Hitems : items (map erase elems) = items elems)
    end.
    { induction elems as [ | e es IHes]; [reflexivity | ].
      simpl. rewrite (IH e), IHes. reflexivity. }
    rewrite Hitems. reflexivity.
  - generalize (Hlookup (VObj l props)), (Htext (VObj l props)).
    simpl. intros -> ->.
    destruct (has_toJSON (VObj l props)) as [[ | ] | e]; try reflexivity.
    match goal with
    | |- context [?members (map ?g props)] =>
        assert (Hmembers : members (map g props) = members props)
    end.
    { induction props as [ | [k e] ps IHps]; [reflexivity | ].
      simpl. rewrite (IH e), IHps. reflexivity. }
    rewrite Hmembers. reflexivity.
Qed.

End Addresses.

(** X21: [deep] does not look at addresses.  On an engine whose [toJSON]
    lookup and [toJSON] texts do not depend on where an object lives, the
    predicate [deep(v)] accepts every subject that differs from [v] only
    in the addresses of its objects, lists and functions, a separately
    built copy in particular. *)
Theorem deep_ignores_addresses (v a : value) (f : func)
    (Hlookup : forall u, has_toJSON (erase u) = has_toJSON u)
    (Htext : forall u, host_to_json (erase u) = host_to_json u)
    (Hcopy : erase v = erase a)
    (Hf : Helpers.deep v = Ret f) :
  apply f a = mret (VBool true).
Proof.
  apply (deep_accepts_same_text v a f); [ | exact Hf].
  rewrite <- (serialize_erase Hlookup Htext v),
          <- (serialize_erase Hlookup Htext a), Hcopy.
  reflexivity.
Qed.

(** X22: what [deep] cannot tell apart, because the JSON texts coincide:
    any two numbers that are NaN or infinite, and such a number and null;
    undefined and a symbol; in a list, an undefined element and a null
    element; an object with and without a property whose value is
    undefined (here for lists and objects that have no [toJSON]). *)
Theorem deep_cannot_distinguish (f : func) :
  (forall x y, is_finite x = false -> is_finite y = false ->
     Helpers.deep (VNum x) = Ret f ->
     apply f (VNum y) = mret (VBool true)
     /\ apply f VNull = mret (VBool true))
  /\ (forall i, Helpers.deep VUndefined = Ret f ->
        apply f (VSymbol i) = mret (VBool true))
  /\ (forall l l' es,
        has_toJSON (VArr l (VUndefined :: es)) = Ret false ->
        has_toJSON (VArr l' (VNull :: es)) = Ret false ->
        Helpers.deep (VArr l (VUndefined :: es)) = Ret f ->
        apply f (VArr l' (VNull :: es)) = mret (VBool true))
  /\ (forall l l' k ps,
        has_toJSON (VObj l ((k, VUndefined) :: ps)) = Ret false ->
        has_toJSON (VObj l' ps) = Ret false ->
        Helpers.deep (VObj l ((k, VUndefined) :: ps)) = Ret f ->
        apply f (VObj l' ps) = mret (VBool true)).
Proof.
  split; [ | split; [ | split]].
  - intros x y Hx Hy Hf.
    split; apply (deep_accepts_same_text (VNum x) _ f); try exact Hf;
      simpl; rewrite Hx, ?Hy; reflexivity.
  - intros i Hf. apply (deep_accepts_same_text VUndefined _ f); [ | exact Hf].
    reflexivity.
  - intros l l' es Hl Hl' Hf.
    apply (deep_accepts_same_text (VArr l (VUndefined :: es)) _ f);
      [ | exact Hf].
    simpl. rewrite Hl, Hl'. reflexivity.
  - intros l l' k ps Hl Hl' Hf.
    apply (deep_accepts_same_text (VObj l ((k, VUndefined) :: ps)) _ f);
      [ | exact Hf].
    simpl. rewrite Hl, Hl'. simpl.
    destruct ((fix members (ps0 : list (string * value)) :=
                 match ps0 with
                 | [] => Ret []
                 | (k0, e) :: ps' =>
                     p ← serialize e;
                     ms ← members ps';
                     Ret (match p with
                          | Some s => (json_quote k0 +:+ ":" +:+ s) :: ms
                          | None => ms
                          end)
                 end) ps); reflexivity.
Qed.

(** Reading back what [json_escape] wrote. *)
Lemma json_unescape_escape (c : ascii) (r : string) :
  json_unescape (json_escape c +:+ r) = String c (json_unescape r).
Proof. destruct c as [[] [] [] [] [] [] [] []]; reflexivity. Qed.

Lemma append_cons (c : ascii) (s t : string) :
  String c s +:+ t = String c (s +:+ t).
Proof. reflexivity. Qed.

Lemma append_assoc (s t u : string) : (s +:+ t) +:+ u = s +:+ (t +:+ u).
Proof.
  induction s as [ | c s IH]; [reflexivity | ].
  rewrite !append_cons, IH. reflexivity.
Qed.

Lemma json_unescape_escape_all (s r : string) :
  json_unescape (json_escape_all s +:+ r) = s +:+ json_unescape r.
Proof.
  induction s as [ | c s IH]; [reflexivity | ].
  change (json_escape_all (String c s))
    with (json_escape c +:+ json_escape_all s).
  rewrite append_assoc, json_unescape_escape, IH.
  reflexivity.
Qed.

Lemma length_append (s t : string) :
  String.length (s +:+ t) = (String.length s + String.length t)%nat.
Proof.
  induction s as [ | c s IH]; [reflexivity | ].
  rewrite append_cons. simpl. rewrite IH. reflexivity.
Qed.

Lemma append_cancel_r (s t u : string) : s +:+ u = t +:+ u -> s = t.
Proof.
  revert t. induction s as [ | c s IH]; intros [ | d t] Heq.
  - reflexivity.
  - apply (f_equal String.length) in Heq.
    rewrite !length_append in Heq. simpl in Heq. lia.
  - apply (f_equal String.length) in Heq.
    rewrite !length_append in Heq. simpl in Heq. lia.
  - rewrite !append_cons in Heq. injection Heq as -> Heq.
    f_equal. apply IH, Heq.
Qed.

(** No two texts have the same JSON quotation. *)
Lemma json_quote_injective (s t : string) :
  json_quote s = json_quote t -> s = t.
Proof.
  unfold json_quote. intros Heq. injection Heq as Heq.
  apply (f_equal json_unescape) in Heq.
  rewrite !json_unescape_escape_all in Heq.
  apply append_cancel_r in Heq. exact Heq.
Qed.

(** X23: on texts [deep] is exact equality: [deep(s)] accepts a text
    exactly when it is [s], character for character; it is never
    confused by quotes, backslashes or control characters in the text. *)
Theorem deep_text_is_exact (s t : string) :
  exists f, Helpers.deep (VStr s) = Ret f
            /\ apply f (VStr t) = mret (VBool (String.eqb s t)).
Proof.
  exists (FDeepFn (VStr (json_quote s))). split; [reflexivity | ].
  rewrite (deepFn_stringified _ (VStr t) (VStr (json_quote t)))
    by reflexivity.
  do 2 f_equal.
  change (String.eqb (json_quote s) (json_quote t) = String.eqb s t).
  destruct (String.eqb_spec s t) as [-> | Hne].
  - apply String.eqb_refl.
  - apply String.eqb_neq. intros Heq. apply Hne, json_quote_injective, Heq.
Qed.

End DeepProperties.

(** * What [deep] compares

    [JSON.stringify] writes the text of a tree, and a text is read back
    in one way only: two values have the same text exactly when they have
    the same tree. *)

Section Structure.

Context {H : Host}.

Lemma json_nested_ind (P : json -> Prop) :
  P JNull -> (forall b, P (JBool b)) -> (forall t, P (JNum t)) ->
  (forall s, P (JStr s)) ->
  (forall items, Forall P items -> P (JArr items)) ->
  (forall members, Forall (fun m => P (snd m)) members -> P (JObj members)) ->
  forall j, P j.
Proof.
  intros Hnull Hbool Hnum Hstr Harr Hobj. fix IH 1. intros j.
  destruct j as [ | b | t | s | items | members].
  - exact Hnull.
  - apply Hbool.
  - apply Hnum.
  - apply Hstr.
  - apply Harr. induction items as [ | x xs IHxs]; constructor;
      [apply IH | exact IHxs].
  - apply Hobj. induction members as [ | [k x] ms IHms]; constructor;
      [apply IH | exact IHms].
Qed.

Lemma append_cancel_l (s t u : string) : s +:+ t = s +:+ u -> t = u.
Proof.
  induction s as [ | c s IH]; [intros Heq; exact Heq | ].
  rewrite !append_cons. intros Heq. injection Heq as Heq. apply IH, Heq.
Qed.

Lemma number_prefix_free (t : string) :
  forall t' r r',
    no_delimiter t = true -> no_delimiter t' = true ->
    delimited r = true -> delimited r' = true ->
    t +:+ r = t' +:+ r' -> t = t' /\ r = r'.
Proof.
  induction t as [ | c t IH]; intros [ | c' t'] r r' Ht Ht' Hr Hr' Heq.
  - split; [reflexivity | exact Heq].
  - exfalso. change (EmptyString +:+ r) with r in Heq. subst r.
    rewrite append_cons in Hr. simpl in Hr, Ht'.
    apply andb_true_iff in Ht' as [Hc _]. rewrite Hr in Hc. discriminate.
  - exfalso. change (EmptyString +:+ r') with r' in Heq. subst r'.
    rewrite append_cons in Hr'. simpl in Hr', Ht.
    apply andb_true_iff in Ht as [Hc _]. rewrite Hr' in Hc. discriminate.
  - rewrite !append_cons in Heq. injection Heq as -> Heq.
    simpl in Ht, Ht'. apply andb_true_iff in Ht as [_ Ht].
    apply andb_true_iff in Ht' as [_ Ht'].
    destruct (IH t' r r' Ht Ht' Hr Hr' Heq) as [-> ->]. split; reflexivity.
Qed.


Lemma json_unescape_quote (r : string) :
  json_unescape (String quote_char r) = String quote_char (json_unescape r).
Proof. reflexivity. Qed.

Lemma escaped_prefix_free (s : string) :
  forall s' r r',
    json_escape_all s +:+ String quote_char r =
    json_escape_all s' +:+ String quote_char r' ->
    s = s' /\ r = r'.
Proof.
  induction s as [ | c s IH]; intros [ | c' s'] r r' Heq.
  - injection Heq as Heq. split; [reflexivity | exact Heq].
  - exfalso.
    change (json_escape_all (String c' s'))
      with (json_escape c' +:+ json_escape_all s') in Heq.
    change (json_escape_all EmptyString +:+ String quote_char r)
      with (String quote_char r) in Heq.
    rewrite append_assoc in Heq.
    assert (Hc := f_equal json_unescape Heq).
    rewrite json_unescape_quote, json_unescape_escape in Hc.
    injection Hc as <- _. discriminate Heq.
  - exfalso.
    change (json_escape_all (String c s))
      with (json_escape c +:+ json_escape_all s) in Heq.
    change (json_escape_all EmptyString +:+ String quote_char r')
      with (String quote_char r') in Heq.
    rewrite append_assoc in Heq.
    assert (Hc := f_equal json_unescape Heq).
    rewrite json_unescape_quote, json_unescape_escape in Hc.
    injection Hc as -> _. discriminate Heq.
  - change (json_escape_all (String c s))
      with (json_escape c +:+ json_escape_all s) in Heq.
    change (json_escape_all (String c' s'))
      with (json_escape c' +:+ json_escape_all s') in Heq.
    rewrite !append_assoc in Heq.
    assert (Hc := f_equal json_unescape Heq).
    rewrite !json_unescape_escape in Hc. injection Hc as -> _.
    apply append_cancel_l in Heq.
    destruct (IH s' r r' Heq) as [-> ->]. split; reflexivity.
Qed.

Lemma quote_prefix_free (s s' r r' : string) :
  json_quote s +:+ r = json_quote s' +:+ r' -> s = s' /\ r = r'.
Proof.
  unfold json_quote. rewrite !append_cons, !append_assoc.
  intros Heq. injection Heq as Heq.
  exact (escaped_prefix_free s s' r r' Heq).
Qed.


(** A joined list followed by more text: its first part, then a comma and
    the rest, or the text that follows. *)
Lemma join_comma_cons (p : string) (ps : list string) (u : string) :
  join_comma (p :: ps) +:+ u =
  p +:+ match ps with
        | [] => u
        | _ :: _ => String ","%char (join_comma ps +:+ u)
        end.
Proof.
  destruct ps as [ | q ps]; [reflexivity | ].
  change (join_comma (p :: q :: ps)) with (p +:+ "," +:+ join_comma (q :: ps)).
  rewrite append_assoc. reflexivity.
Qed.

Lemma joined_prefix_free {A : Type} (show : A -> string) (ok : A -> Prop)
    (close : ascii) (xs : list A) :
  is_delimiter close = true -> close <> ","%char ->
  (forall x r, ok x -> delimited (show x +:+ r) = false) ->
  Forall (fun x => ok x /\ forall x' r r',
            ok x' -> delimited r = true -> delimited r' = true ->
            show x +:+ r = show x' +:+ r' -> x = x' /\ r = r') xs ->
  forall xs' r r',
    Forall ok xs' ->
    join_comma (map show xs) +:+ String close r =
    join_comma (map show xs') +:+ String close r' ->
    xs = xs' /\ r = r'.
Proof.
  intros Hclose Hcomma Hlead Hxs.
  induction Hxs as [ | x xs [Hokx Hx] _ IH]; intros [ | x' xs'] r r' Hok' Heq.
  - injection Heq as Heq. split; [reflexivity | exact Heq].
  - exfalso. apply Forall_cons in Hok' as [Hx' _].
    cbn [map] in Heq. rewrite join_comma_cons in Heq.
    apply (f_equal delimited) in Heq. rewrite (Hlead x' _ Hx') in Heq.
    simpl in Heq. congruence.
  - exfalso. cbn [map] in Heq. rewrite join_comma_cons in Heq.
    apply (f_equal delimited) in Heq. rewrite (Hlead x _ Hokx) in Heq.
    simpl in Heq. congruence.
  - apply Forall_cons in Hok' as [Hx' Hok'].
    cbn [map] in Heq. rewrite !join_comma_cons in Heq.
    assert (Hd : forall (ys : list A) u,
              delimited match map show ys with
                        | [] => String close u
                        | _ :: _ =>
                            String ","%char
                              (join_comma (map show ys) +:+ String close u)
                        end = true).
    { intros [ | y ys] u; [exact Hclose | reflexivity]. }
    destruct (Hx x' _ _ Hx' (Hd xs r) (Hd xs' r') Heq) as [-> Htail].
    destruct xs as [ | y ys], xs' as [ | y' ys'].
    + injection Htail as ->. split; reflexivity.
    + exfalso. cbn [map] in Htail. injection Htail as Hc _. contradiction.
    + exfalso. cbn [map] in Htail. injection Htail as Hc _.
      apply Hcomma. symmetry. exact Hc.
    + cbn [map] in Htail. injection Htail as Htail.
      destruct (IH (y' :: ys') r r' Hok' Htail) as [-> ->].
      split; reflexivity.
Qed.


Lemma render_lead (j : json) (r : string) :
  well_formed j = true -> exists rest, render j +:+ r = String (lead j) rest.
Proof.
  destruct j as [ | [ | ] | [ | c t] | s | items | members]; intros Hwf;
    try discriminate Hwf; eexists; reflexivity.
Qed.

Lemma lead_not_delimiter (j : json) :
  well_formed j = true -> is_delimiter (lead j) = false.
Proof.
  destruct j as [ | [ | ] | [ | c t] | s | items | members]; intros Hwf;
    try discriminate Hwf; try reflexivity.
  simpl in Hwf. apply andb_true_iff in Hwf as [_ Hwf].
  apply andb_true_iff in Hwf as [Hc _]. apply negb_true_iff in Hc. exact Hc.
Qed.

Lemma render_not_delimited (j : json) (r : string) :
  well_formed j = true -> delimited (render j +:+ r) = false.
Proof.
  intros Hwf. destruct (render_lead j r Hwf) as [rest ->].
  apply lead_not_delimiter, Hwf.
Qed.

Lemma lead_kind (j j' : json) :
  well_formed j = true -> well_formed j' = true -> lead j = lead j' ->
  kind j = kind j' /\ (forall b b', j = JBool b -> j' = JBool b' -> b = b').
Proof.
  assert (Hn : forall t c, well_formed (JNum t) = true -> lead (JNum t) = c ->
                           opens_value c = false).
  { intros [ | d t] c Hwf; [discriminate Hwf | ]. simpl. intros <-.
    simpl in Hwf. apply andb_true_iff in Hwf as [Hd _].
    apply negb_true_iff in Hd. exact Hd. }
  intros Hwf Hwf' Hlead.
  destruct j as [ | [ | ] | t | s | items | members],
           j' as [ | [ | ] | t' | s' | items' | members'];
    try (split; [reflexivity | congruence]);
    try discriminate Hlead;
    try (apply (Hn _ _ Hwf) in Hlead; discriminate Hlead);
    try (symmetry in Hlead; apply (Hn _ _ Hwf') in Hlead; discriminate Hlead).
Qed.


Lemma render_list (items : list json) (r : string) :
  render (JArr items) +:+ r =
  String "["%char (join_comma (map render items) +:+ String "]"%char r).
Proof.
  cbn [render]. rewrite !append_cons, !append_assoc. reflexivity.
Qed.

Lemma render_object (members : list (string * json)) (r : string) :
  render (JObj members) +:+ r =
  String "{"%char
    (join_comma (map (fun m => let '(k, x) := m in
                               json_quote k +:+ ":" +:+ render x) members)
     +:+ String "}"%char r).
Proof.
  cbn [render]. rewrite !append_cons, !append_assoc. reflexivity.
Qed.

(** No text of a tree continues into the text of another: a JSON text is
    read in one way only. *)
Lemma render_prefix_free (j : json) :
  well_formed j = true ->
  forall j' r r',
    well_formed j' = true -> delimited r = true -> delimited r' = true ->
    render j +:+ r = render j' +:+ r' -> j = j' /\ r = r'.
Proof.
  induction j as [ | b | t | s | items IH | members IH] using json_nested_ind;
    intros Hwf j' r r' Hwf' Hr Hr' Heq;
    match type of Heq with
    | render ?j0 +:+ _ = _ =>
        assert (Hlead : lead j0 = lead j');
        [ destruct (render_lead j0 r Hwf) as [rest Hl];
          destruct (render_lead j' r' Hwf') as [rest' Hl'];
          rewrite Hl, Hl' in Heq; injection Heq as Hc _; exact Hc
        | destruct (lead_kind j0 j' Hwf Hwf' Hlead) as [Hkind Hbool] ]
    end;
    destruct j' as [ | b' | t' | s' | items' | members'];
    try discriminate Hkind.
  - apply append_cancel_l in Heq. split; [reflexivity | exact Heq].
  - rewrite (Hbool b b' eq_refl eq_refl) in *.
    apply append_cancel_l in Heq. split; [reflexivity | exact Heq].
  - simpl in Heq, Hwf, Hwf'.
    assert (Hnd : forall u, number_text u = true -> no_delimiter u = true).
    { intros [ | c u] Hu; [discriminate Hu | ].
      unfold number_text in Hu. apply andb_true_iff in Hu as [_ Hu]. exact Hu. }
    destruct (number_prefix_free t t' r r' (Hnd _ Hwf) (Hnd _ Hwf') Hr Hr' Heq)
      as [-> ->].
    split; reflexivity.
  - cbn [render] in Heq. destruct (quote_prefix_free s s' r r' Heq) as [-> ->].
    split; reflexivity.
  - rewrite !render_list in Heq. injection Heq as Heq.
    cbn [well_formed] in Hwf, Hwf'.
    destruct (joined_prefix_free render (fun x => well_formed x = true)
                "]"%char items eq_refl ltac:(discriminate)
                (fun x u Hx => render_not_delimited x u Hx)) with
      (xs' := items') (r := r) (r' := r') as [-> ->].
    + apply Forall_forall. intros x Hx. split.
      * rewrite forallb_forall in Hwf. apply Hwf, list_elem_of_In, Hx.
      * rewrite Forall_forall in IH. apply (IH x Hx).
        rewrite forallb_forall in Hwf. apply Hwf, list_elem_of_In, Hx.
    + apply Forall_forall. intros x Hx.
      rewrite forallb_forall in Hwf'. apply Hwf', list_elem_of_In, Hx.
    + exact Heq.
    + split; reflexivity.
  - rewrite !render_object in Heq. injection Heq as Heq.
    cbn [well_formed] in Hwf, Hwf'.
    destruct (joined_prefix_free
                (fun m : string * json =>
                   let '(k, x) := m in json_quote k +:+ ":" +:+ render x)
                (fun m => well_formed (snd m) = true)
                "}"%char members eq_refl ltac:(discriminate)) with
      (xs' := members') (r := r) (r' := r') as [-> ->].
    + intros [k x] u _. reflexivity.
    + apply Forall_forall. intros [k x] Hm. split.
      * rewrite forallb_forall in Hwf.
        apply (Hwf (k, x)), list_elem_of_In, Hm.
      * intros [k' x'] u u' Hx' Hu Hu' Hshow.
        rewrite !append_assoc, !append_cons in Hshow.
        apply quote_prefix_free in Hshow as [-> Hshow].
        injection Hshow as Hshow.
        rewrite Forall_forall in IH.
        assert (Hwx : well_formed x = true).
        { rewrite forallb_forall in Hwf.
          apply (Hwf (k', x)), list_elem_of_In, Hm. }
        destruct (IH (k', x) Hm Hwx x' u u' Hx' Hu Hu' Hshow) as [Hxx ->].
        simpl in Hxx. subst x'. split; reflexivity.
    + apply Forall_forall. intros [k x] Hm.
      rewrite forallb_forall in Hwf'.
      apply (Hwf' (k, x)), list_elem_of_In, Hm.
    + exact Heq.
    + split; reflexivity.
Qed.

Lemma render_injective (j j' : json) :
  well_formed j = true -> well_formed j' = true ->
  render j = render j' -> j = j'.
Proof.
  intros Hwf Hwf' Heq.
  assert (Heq' : render j +:+ EmptyString = render j' +:+ EmptyString)
    by (rewrite Heq; reflexivity).
  exact (proj1 (render_prefix_free j Hwf j' EmptyString EmptyString Hwf'
                  eq_refl eq_refl Heq')).
Qed.


(** *** The tree of a value and its text *)

Lemma no_method_lookup (v : value) :
  no_method v = true -> has_toJSON v = Ret false.
Proof.
  unfold no_method. destruct (has_toJSON v) as [[ | ] | e]; try discriminate.
  reflexivity.
Qed.

Lemma render_default (t : option json) :
  default "null" (option_map render t) = render (default JNull t).
Proof. destruct t; reflexivity. Qed.

Lemma serialize_tree :
  forall v, plain v = true -> serialize v = Ret (option_map render (tree v)).
Proof.
  fix IH 1. intros v Hv.
  destruct v as [ | | b | x | s | i | l f | l elems | l props];
    try reflexivity.
  - simpl. destruct (is_finite x); reflexivity.
  - simpl in Hv. simpl. rewrite (no_method_lookup _ Hv). reflexivity.
  - cbn [plain] in Hv. apply andb_true_iff in Hv as [Hm Hes].
    simpl. rewrite (no_method_lookup _ Hm). simpl. clear Hm.
    match goal with
    | |- context [?items elems] =>
        lazymatch type of items with
        | list value -> result (list string) =>
            assert (Hitems : items elems =
                             Ret (map (fun e => render (default JNull (tree e)))
                                    elems))
        end
    end.
    { induction elems as [ | e es IHes]; [reflexivity | ].
      simpl in Hes. apply andb_true_iff in Hes as [He Hes].
      simpl. rewrite (IH e He), (IHes Hes). simpl.
      rewrite render_default. reflexivity. }
    rewrite Hitems. simpl. rewrite map_map. reflexivity.
  - cbn [plain] in Hv. apply andb_true_iff in Hv as [Hm Hps].
    simpl. rewrite (no_method_lookup _ Hm). simpl. clear Hm.
    match goal with
    | |- context [?members props] =>
        lazymatch type of members with
        | list (string * value) -> result (list string) =>
            match goal with
            | |- context [?trees props] =>
                lazymatch type of trees with
                | list (string * value) -> list (string * json) =>
                    assert (Hmembers :
                              members props =
                              Ret (map (fun m : string * json =>
                                          let '(k, x) := m in
                                          json_quote k +:+ ":" +:+ render x)
                                     (trees props)))
                end
            end
        end
    end.
    { induction props as [ | [k e] ps IHps]; [reflexivity | ].
      simpl in Hps. apply andb_true_iff in Hps as [He Hps].
      simpl. rewrite (IH e He), (IHps Hps). simpl.
      destruct (tree e); reflexivity. }
    rewrite Hmembers. reflexivity.
Qed.


Lemma tree_erase : forall v, tree (erase v) = tree v.
Proof.
  fix IH 1. intros v.
  destruct v as [ | | b | x | s | i | l f | l elems | l props];
    try reflexivity.
  - cbn [erase tree]. do 2 f_equal. rewrite map_map.
    induction elems as [ | e es IHes]; [reflexivity | ].
    simpl. rewrite (IH e), IHes. reflexivity.
  - cbn [erase tree]. do 2 f_equal.
    induction props as [ | [k e] ps IHps]; [reflexivity | ].
    simpl. rewrite (IH e), IHps. reflexivity.
Qed.

Lemma exact_has_tree (v : value) : exact v = true -> exists j, tree v = Some j.
Proof. destruct v; try discriminate; intros _; eexists; reflexivity. Qed.

(** Between exact values the tree tells everything but the addresses. *)
Lemma exact_tree_injective :
  forall v a, exact v = true -> exact a = true -> tree v = tree a ->
              erase v = erase a.
Proof.
  fix IH 1. intros v a Hv Ha Heq.
  destruct v as [ | | b | x | s | i | l f | l elems | l props];
    try discriminate Hv;
    destruct a as [ | | b' | x' | s' | i' | l' f' | l' elems' | l' props'];
    try discriminate Ha; try discriminate Heq.
  - reflexivity.
  - injection Heq as ->. reflexivity.
  - injection Heq as ->. reflexivity.
  - cbn [tree] in Heq. injection Heq as Heq. cbn [erase]. f_equal.
    cbn [exact] in Hv, Ha. revert elems' Ha Heq.
    induction elems as [ | e es IHes]; intros [ | e' es'] Ha Heq;
      try discriminate Heq; [reflexivity | ].
    simpl in Hv, Ha, Heq.
    apply andb_true_iff in Hv as [He Hes]. apply andb_true_iff in Ha as [He' Hes'].
    injection Heq as Hhead Htail.
    destruct (exact_has_tree e He) as [j Hj].
    destruct (exact_has_tree e' He') as [j' Hj'].
    simpl. rewrite (IH e e' He He'), (IHes Hes es' Hes' Htail); [reflexivity | ].
    rewrite Hj, Hj' in *. simpl in Hhead. congruence.
  - cbn [tree] in Heq. injection Heq as Heq. cbn [erase]. f_equal.
    cbn [exact] in Hv, Ha. revert props' Ha Heq.
    induction props as [ | [k e] ps IHps]; intros [ | [k' e'] ps'] Ha Heq.
    + reflexivity.
    + exfalso. simpl in Ha. apply andb_true_iff in Ha as [He' _].
      destruct (exact_has_tree e' He') as [j' Hj'].
      rewrite Hj' in Heq. discriminate Heq.
    + exfalso. simpl in Hv. apply andb_true_iff in Hv as [He _].
      destruct (exact_has_tree e He) as [j Hj].
      rewrite Hj in Heq. discriminate Heq.
    + simpl in Hv, Ha.
      apply andb_true_iff in Hv as [He Hes].
      apply andb_true_iff in Ha as [He' Hes'].
      destruct (exact_has_tree e He) as [j Hj].
      destruct (exact_has_tree e' He') as [j' Hj'].
      rewrite Hj, Hj' in Heq. injection Heq as -> -> Htail.
      simpl. rewrite (IH e e' He He'), (IHps Hes ps' Hes' Htail);
        [reflexivity | congruence].
Qed.

Section NumberTexts.

Hypothesis Hnum : forall x, is_finite x = true ->
                            number_text (host_number_to_string x) = true.

Lemma tree_well_formed :
  forall v j, tree v = Some j -> well_formed j = true.
Proof.
  fix IH 1. intros v j Hj.
  destruct v as [ | | b | x | s | i | l f | l elems | l props];
    try discriminate Hj; injection Hj as <-; try reflexivity.
  - destruct (is_finite x) eqn:Hx; [apply Hnum, Hx | reflexivity].
  - cbn [well_formed]. induction elems as [ | e es IHes]; [reflexivity | ].
    simpl. rewrite IHes, andb_true_r.
    destruct (tree e) as [j | ] eqn:He; [exact (IH e j He) | reflexivity].
  - cbn [well_formed]. induction props as [ | [k e] ps IHps]; [reflexivity | ].
    destruct (tree e) as [j | ] eqn:He; [ | exact IHps].
    simpl. rewrite IHps, andb_true_r. exact (IH e j He).
Qed.

(** What [JSON.stringify] returns: the text of the tree, or undefined. *)
Lemma stringify_tree (v : value) :
  plain v = true ->
  JSON_stringify v = Ret match tree v with
                         | Some j => VStr (render j)
                         | None => VUndefined
                         end.
Proof.
  intros Hv. unfold JSON_stringify. rewrite (serialize_tree v Hv).
  destruct (tree v); reflexivity.
Qed.

(** Two values without [toJSON] methods have the same JSON text exactly
    when they have the same tree. *)
Lemma same_text_same_tree (v a : value) :
  plain v = true -> plain a = true ->
  exists st sa, JSON_stringify v = Ret st /\ JSON_stringify a = Ret sa
                /\ (strict_equals st sa = true <-> tree v = tree a).
Proof.
  intros Hv Ha. rewrite (stringify_tree v Hv), (stringify_tree a Ha).
  do 2 eexists. split; [reflexivity | ]. split; [reflexivity | ].
  destruct (tree v) as [j | ] eqn:Hj, (tree a) as [j' | ] eqn:Hj'; simpl.
  - rewrite String.eqb_eq. split.
    + intros Heq. f_equal.
      apply render_injective; [exact (tree_well_formed v j Hj) | | exact Heq].
      exact (tree_well_formed a j' Hj').
    + intros Heq. injection Heq as ->. reflexivity.
  - split; discriminate.
  - split; discriminate.
  - split; reflexivity.
Qed.

End NumberTexts.



End Structure.

Section GrammarProperties.

Context {H : Host}.

(** X24: the table is complete and unambiguous: every token has a rule,
    distinct tokens have distinct patterns, no pattern is listed twice,
    and every rule belongs to a token. *)
Theorem grammar_covers_tokens :
  (forall t lexeme, exists n, node_of t lexeme = Some n)
  /\ (forall t t', Grammar.tokens t = Grammar.tokens t' -> t = t')
  /\ NoDup (map fst Grammar.grammar)
  /\ (forall key, In key (map fst Grammar.grammar) ->
        exists t, In t all_tokens /\ key = Grammar.tokens t).
Proof.
  split; [ | split; [ | split]].
  - intros t lexeme. destruct t; eexists; reflexivity.
  - intros t t' Heq.
    destruct t, t'; try reflexivity; vm_compute in Heq; discriminate Heq.
  - apply (bool_decide_unpack _). vm_compute. reflexivity.
  - intros key Hkey.
    change (map fst Grammar.grammar)
      with (map Grammar.tokens
              [Grammar.SYMBOL; Grammar.NUMBER; Grammar.STRING_DOUBLE;
               Grammar.STRING_SINGLE; Grammar.PREDICATE_LOOKUP; Grammar.NOT;
               Grammar.AND; Grammar.OR; Grammar.BTW; Grammar.GTE; Grammar.LTE;
               Grammar.GT; Grammar.LT; Grammar.ENTRY; Grammar.OBJ;
               Grammar.OBJ_CLOSE; Grammar.ARG; Grammar.PRECEDENCE;
               Grammar.PRECEDENCE_CLOSE]) in Hkey.
    apply in_map_iff in Hkey as [t [<- _]]. exists t.
    split; [ | reflexivity]. destruct t; simpl; tauto.
Qed.

Lemma isLiteral_inherited (l : loc) (n : Grammar.node) :
  assoc (Grammar.type n)
        [("NumericLiteral", VNum one); ("StringLiteral", VNum one);
         ("SymbolLiteral", VNum one)] = None ->
  host_inherited (literal_types l) (KStr (Grammar.type n)) = Ret VUndefined ->
  isLiteral l (Some n) = Ret (VBool false).
Proof.
  intros Hown Hinh. unfold isLiteral, get, literal_types in *.
  cbn [to_property_key].
  change (Ret (KStr (Grammar.type n)) ≫= ?k) with (k (KStr (Grammar.type n))).
  cbn [own_property]. rewrite Hown, Hinh. reflexivity.
Qed.

(** X25: a node the table builds passes exactly one of the eight node
    tests, on an engine where the table of literal types inherits no
    member named after a node type.  [isLiteral] does not return a
    boolean on a literal: it returns the number 1.  An absent node passes
    no test. *)
Theorem node_tests_partition (l : loc) (t : Grammar.token_name)
    (lexeme : string)
    (Hhost : forall ty, In ty node_types ->
               host_inherited (literal_types l) (KStr ty) = Ret VUndefined) :
  (exists n v, node_of t lexeme = Some n
               /\ isLiteral l (Some n) = Ret v
               /\ tests_passed (Some n) v = 1%nat
               /\ (to_boolean v = true -> v = VNum one))
  /\ isLiteral l None = Ret (VBool false)
  /\ tests_passed None (VBool false) = 0%nat.
Proof.
  split; [ | split; reflexivity].
  destruct t;
    match goal with
    | |- exists n v, node_of ?t lexeme = Some n /\ _ =>
        let n := eval vm_compute in (node_of t lexeme) in
        match n with
        | Some ?m => exists m
        end
    end;
    first
      [ exists (VNum one); repeat split; reflexivity
      | exists (VBool false); split; [reflexivity | ]; split;
        [ apply isLiteral_inherited; [reflexivity | ];
          apply Hhost; simpl; tauto
        | split; [reflexivity | discriminate] ] ].
Qed.

(** X26: every node of type Operator carries an arity, a runtime function
    and a precedence, its arity is the number of parameters of its
    runtime function, and its token is the lexeme unchanged; a node that
    is neither an Operator nor the variadic object opener carries no
    runtime function and no precedence. *)
Theorem operator_nodes_are_complete (t : Grammar.token_name) (lexeme : string) :
  exists n, node_of t lexeme = Some n
    /\ (isOperator (Some n) = true ->
        exists a r p, Grammar.arity n = Some a /\ Grammar.runtime n = Some r
                      /\ Grammar.prec n = Some p /\ parameters r = Some a
                      /\ Grammar.token n = Grammar.Lexeme lexeme)
    /\ (isOperator (Some n) = false -> isVaradicFunction (Some n) = false ->
        Grammar.runtime n = None /\ Grammar.prec n = None
        /\ Grammar.arity n = None).
Proof.
  destruct t; eexists; (split; [reflexivity | ]); split;
    try (intros Hop; discriminate Hop);
    try (intros _ Hv; discriminate Hv);
    try (intros _; do 3 eexists; repeat split; reflexivity);
    try (intros _ _; repeat split; reflexivity).
Qed.

End GrammarProperties.

(** * Which calls return a boolean *)

Section Totality.

Context {H : Host}.

Lemma entry_parts_predicate (entry : value) :
  snd (entry_parts entry) = invoke (entry_predicate entry).
Proof.
  destruct entry as [ | | | | | | | l elems | ]; try reflexivity.
  destruct elems as [ | key [ | p rest]]; reflexivity.
Qed.

Lemma invoke_function (p : value) :
  typeof p = "function" -> invoke p = call_val p.
Proof. destruct p; try discriminate. reflexivity. Qed.

(** [holdsFn] on a subject whose elements can be read and are answered
    with booleans. *)
Lemma holdsFn_indexed (fns : list pred) (n : value) (elems : list value) :
  fns <> [] -> indexed n = Ret elems ->
  (forall fn item, fn ∈ fns -> item ∈ elems ->
                   exists b, res (fn item) = Ret (VBool b)) ->
  res (holdsFn fns n) =
  Ret (VBool (forallb (fun fn => existsb (verdict fn) elems) fns)).
Proof.
  intros Hne Hidx Hpred. unfold holdsFn. rewrite Hidx, bind_lift_ret, res_bind.
  change (map (fun _ : pred => VBool false) fns)
    with (marks (fun _ => false) fns).
  rewrite (holds_outer fns elems (fun _ => false) Hpred). simpl.
  destruct fns as [ | fn rest]; [contradiction | ]. simpl.
  rewrite fold_js_and. reflexivity.
Qed.

(** The [reduce] of [objFn] when, on a truthy subject, every key can be
    read and every predicate answers what was read with a boolean. *)
Lemma objFn_boolean (a : value) (es : list (value * pred)) :
  (to_boolean a = true -> forall key p, In (key, p) es ->
     exists x b, get a key = Ret x /\ res (p x) = Ret (VBool b)) ->
  forall b0,
    exists b, res (for_each es (obj_step a) (VBool b0)) = Ret (VBool b).
Proof.
  induction es as [ | [key p] es IH]; intros Hes b0.
  - exists b0. reflexivity.
  - assert (Hrest : forall b1, exists b,
              res (for_each es (obj_step a) (VBool b1)) = Ret (VBool b)).
    { apply IH. intros Ha k q Hin. apply (Hes Ha). right. exact Hin. }
    rewrite for_each_cons, obj_step_eq, res_bind. cbn [to_boolean].
    destruct b0; [ | apply Hrest].
    destruct (to_boolean a) eqn:Ha; [ | apply Hrest].
    destruct (Hes eq_refl key p (or_introl eq_refl)) as [x [b [Hx Hb]]].
    rewrite Hx, bind_lift_ret, Hb. apply Hrest.
Qed.

(** C1, amended: a predicate returns a boolean, and does not throw, on
    every subject it is made for ([in_domain]): whatever [val], [prim],
    [deep], the comparisons, [not], [and], [or], [holds] and [obj] build
    from values and from caller-supplied functions, combined in any way.
    Besides, [not], [and] and [or] return a boolean on a subject that
    their arguments, whatever they are, answer with a boolean, and [not]
    already when its argument returns at all. *)
Theorem predicates_return_booleans :
  (forall fresh p a, in_domain p a ->
     exists b, res (invoke (Helpers.val fresh p) a) = Ret (VBool b))
  /\ (forall p q a,
        (exists b, res (call_val p a) = Ret (VBool b)) ->
        (exists b, res (call_val q a) = Ret (VBool b)) ->
        (exists b, res (apply (Helpers.and p q) a) = Ret (VBool b))
        /\ (exists b, res (apply (Helpers.or p q) a) = Ret (VBool b)))
  /\ (forall p a w, res (call_val p a) = Ret w ->
        exists b, res (apply (Helpers.not p) a) = Ret (VBool b)).
Proof.
  split; [ | split].
  { intros fresh p a Hdom. rewrite invoke_val.
    induction Hdom as
      [ v a Hv | l v a | l a | l primative a | l id name a b Hcall
      | l x a n Hn | l x a n Hn | l x a n Hn | l x a n Hn
      | l x y a n Hn | l x y a n Hn
      | l v f a sa Hf Hsa
      | l p a _ IHp | l p q a _ IHp _ IHq | l p q a _ IHp _ IHq
      | l args n elems Hne Hidx _ IHargs
      | l entries a Hshape _ IHentries ].
    - rewrite (call_val_value v a Hv). eauto.
    - simpl. unfold isVal. eauto.
    - simpl. unfold BooleanFn. eauto.
    - change (call_val (VFun l (Helpers.prim primative)))
        with (apply (Helpers.prim primative)).
      unfold Helpers.prim.
      destruct (String.eqb (func_name primative) "Array"); simpl;
        unfold primArray, primTypeof; eauto.
    - simpl. unfold call_host. simpl. eauto.
    - change (call_val (VFun l (Helpers.lt (VNum x))))
        with (apply (Helpers.lt (VNum x))).
      rewrite ltFn_number, Hn. simpl. eauto.
    - change (call_val (VFun l (Helpers.lte (VNum x))))
        with (apply (Helpers.lte (VNum x))).
      rewrite lteFn_number, Hn. simpl. eauto.
    - change (call_val (VFun l (Helpers.gt (VNum x))))
        with (apply (Helpers.gt (VNum x))).
      rewrite gtFn_number, Hn. simpl. eauto.
    - change (call_val (VFun l (Helpers.gte (VNum x))))
        with (apply (Helpers.gte (VNum x))).
      rewrite gteFn_number, Hn. simpl. eauto.
    - change (call_val (VFun l (Helpers.btw (VNum x) (VNum y))))
        with (apply (Helpers.btw (VNum x) (VNum y))).
      rewrite btwFn_numbers, Hn. simpl. eauto.
    - change (call_val (VFun l (Helpers.btwe (VNum x) (VNum y))))
        with (apply (Helpers.btwe (VNum x) (VNum y))).
      rewrite btweFn_numbers, Hn. simpl. eauto.
    - unfold Helpers.deep in Hf.
      destruct (JSON_stringify v) as [st | e]; [ | discriminate].
      injection Hf as <-.
      change (call_val (VFun l (FDeepFn st))) with (apply (FDeepFn st)).
      rewrite (deepFn_stringified st a sa Hsa). eauto.
    - change (call_val (VFun l (Helpers.not p))) with (notFn (call_val p)).
      unfold notFn. rewrite res_bind. destruct IHp as [b ->]. eauto.
    - change (call_val (VFun l (Helpers.and p q)))
        with (andFn (call_val p) (call_val q)).
      unfold andFn. rewrite res_bind. destruct IHp as [b ->].
      destruct b; [exact IHq | eauto].
    - change (call_val (VFun l (Helpers.or p q)))
        with (orFn (call_val p) (call_val q)).
      unfold orFn. rewrite res_bind. destruct IHp as [b ->].
      destruct b; [eauto | exact IHq].
    - change (call_val (VFun l (Helpers.holds args)))
        with (holdsFn (map call_val args)).
      rewrite (holdsFn_indexed _ n elems); [eauto | | exact Hidx | ].
      + destruct args; [contradiction | discriminate].
      + intros fn item Hfn Hitem.
        apply list_elem_of_In, in_map_iff in Hfn as [arg [<- Harg]].
        apply IHargs; [apply list_elem_of_In, Harg | exact Hitem].
    - change (call_val (VFun l (Helpers.obj entries)))
        with (objFn (map entry_parts entries)).
      unfold objFn. apply objFn_boolean. intros Ha key p Hin.
      apply in_map_iff in Hin as [entry [Hparts Hin]].
      apply list_elem_of_In in Hin.
      destruct (Hshape entry Hin Ha) as [Hfun [x Hx]].
      destruct (IHentries entry x Hin Ha Hx) as [b Hb].
      exists x, b.
      assert (Hkey : key = fst (entry_parts entry)) by (rewrite Hparts; reflexivity).
      assert (Hp : p = snd (entry_parts entry)) by (rewrite Hparts; reflexivity).
      rewrite Hkey, Hp, entry_parts_predicate, (invoke_function _ Hfun).
      split; [exact Hx | exact Hb]. }
  { intros p q a [b Hp] [c Hq]. rewrite apply_and, apply_or.
    unfold andFn, orFn. rewrite !res_bind, Hp.
    destruct b; simpl; eauto. }
  { intros p a w Hp. rewrite apply_not. unfold notFn.
    rewrite res_bind, Hp. eauto. }
Qed.

End Totality.

(** * The further properties at concrete inputs *)

Section FurtherExamples.

Import Helpers.

#[local] Existing Instance bare_host.

Lemma bounds_included_or_excluded_witness :
  comparable (number_of_nat 3) (number_of_nat 9) = true
  /\ apply (btwe (num 3) (num 9)) (num 9) = mret (VBool true)
  /\ apply (btw (num 3) (num 9)) (num 9) = mret (VBool false)
  /\ comparable NaN (number_of_nat 9) = false
  /\ apply (btw (VNum NaN) (num 9)) (VNum NaN) = mret (VBool false)
  /\ apply (btw (VNum NaN) (num 9)) (num 9) = mret (VBool false).
Proof.
  split; [reflexivity | ].
  destruct (bounds_included_or_excluded (number_of_nat 3) (number_of_nat 9))
    as [Hin [_ Hout]].
  split; [exact (proj2 (Hin eq_refl)) | ].
  split; [exact Hout | ].
  split; [reflexivity | ].
  exact (proj2 (bounds_included_or_excluded NaN (number_of_nat 9))).
Defined.

Lemma btwe_is_btw_or_bound_witness :
  res (apply (btwe (num 3) (num 9)) (num 3)) = Ret (VBool true) <->
  res (apply (btw (num 3) (num 9)) (num 3)) = Ret (VBool true)
  \/ strict_equals (num 3) (num 3) = true
  \/ strict_equals (num 3) (num 9) = true.
Proof.
  exact (btwe_is_btw_or_bound (number_of_nat 3) (number_of_nat 9)
           (number_of_nat 3) eq_refl).
Defined.

Lemma comparisons_complement_witness :
  subject_number (VBool true) = Ret one
  /\ apply (gte (num 3)) (VBool true) = mret (VBool false)
  /\ apply (lt (num 3)) (VBool true) = mret (VBool true).
Proof.
  split; [reflexivity | ].
  destruct (comparisons_complement (number_of_nat 3) (VBool true) one eq_refl)
    as [Hgte [Hlt _]].
  split; [exact Hgte | exact Hlt].
Defined.

Lemma btw_is_and_of_comparisons_witness :
  SFltb (number_of_nat 3) (number_of_nat 9) = true
  /\ apply (btw (num 3) (num 9)) (VSymbol 0) =
     apply (and (VFun 1 (gt (num 3))) (VFun 2 (lt (num 9)))) (VSymbol 0).
Proof.
  split; [reflexivity | ].
  exact (proj1 (btw_is_and_of_comparisons (number_of_nat 3) (number_of_nat 9)
                  1 2 (VSymbol 0) eq_refl)).
Defined.

Lemma holds_empty_list_witness :
  [num 1; always] <> []
  /\ apply (holds [num 1; always]) (VArr 0 []) = mret (VBool false).
Proof.
  assert (Hne : [num 1; always] <> []) by discriminate.
  split; [exact Hne | ].
  exact (holds_empty_list [num 1; always] 0 Hne).
Defined.

Lemma booleans_on_two (arg item : value) :
  arg ∈ [num 1; always] -> item ∈ [num 1; num 3] ->
  exists b, res (call_val arg item) = Ret (VBool b).
Proof.
  intros Harg Hitem. apply list_elem_of_In in Harg, Hitem. simpl in Harg, Hitem.
  destruct Hitem as [<- | [<- | []]];
    destruct Harg as [<- | [<- | []]]; eexists; reflexivity.
Defined.

Lemma holds_order_independent_witness :
  res (apply (holds [always; num 1]) (VArr 7 [num 3; num 1])) =
  res (apply (holds [num 1; always]) (VArr 0 [num 1; num 3])).
Proof.
  apply (holds_order_independent [num 1; always] [always; num 1] 0 7
           [num 1; num 3] [num 3; num 1]).
  - discriminate.
  - exact booleans_on_two.
  - apply perm_swap.
  - apply perm_swap.
Defined.

Lemma booleans_on_first (arg item : value) :
  arg ∈ [num 1] ++ [always] -> item ∈ [num 1] ->
  exists b, res (call_val arg item) = Ret (VBool b).
Proof.
  intros Harg Hitem. apply list_elem_of_In in Harg, Hitem. simpl in Harg, Hitem.
  destruct Hitem as [<- | []].
  destruct Harg as [<- | [<- | []]]; eexists; reflexivity.
Defined.

Lemma holds_splits_and_grows_witness :
  (exists b1 b2,
     res (apply (holds [num 1]) (VArr 0 [num 1])) = Ret (VBool b1)
     /\ res (apply (holds [always]) (VArr 0 [num 1])) = Ret (VBool b2)
     /\ res (apply (holds ([num 1] ++ [always])) (VArr 0 [num 1])) =
        Ret (VBool (b1 && b2)))
  /\ apply (holds [always; give_one]) (VArr 7 ([num 1] ++ [num 3]))
     = apply (holds [always; give_one]) (VArr 0 [num 1]).
Proof.
  split.
  - apply (proj1 (holds_splits_and_grows [num 1] [always] [] 0 0 [num 1] [])).
    + discriminate.
    + discriminate.
    + exact booleans_on_first.
  - apply (proj2 (holds_splits_and_grows [] [] [always; give_one] 0 7
                    [num 1] [num 3]) (VNum one)); reflexivity.
Defined.

Lemma below_four (y : value) :
  y ∈ [num 1; num 3] ->
  exists v, host_call 4 y = Ret v /\ to_boolean v = false.
Proof.
  intros Hy. apply list_elem_of_In in Hy. simpl in Hy.
  destruct Hy as [<- | [<- | []]]; eexists; split; reflexivity.
Defined.

Lemma holds_stops_at_first_match_witness :
  apply (holds [above_three]) (VArr 0 ([num 1; num 3] ++ num 4 :: [num 9; num 1]))
  = Run (map (fun y => (4%nat, y)) ([num 1; num 3] ++ [num 4]))
        (Ret (VBool true)).
Proof.
  exact (holds_stops_at_first_match 4 "aboveThree" 104 0 [num 1; num 3]
           [num 9; num 1] (num 4) (VBool true) below_four eq_refl eq_refl).
Defined.

Lemma no_second_element (second : value) :
  [VStr "a"] !! 1%nat = Some second -> is_callable second = false.
Proof. intros Hs. discriminate Hs. Defined.

Lemma obj_malformed_entry_witness :
  apply (obj [VArr 1 [VStr "a"]]) (VObj 5 [("a", num 1)]) = throw TypeError
  /\ apply (obj [VArr 1 [VStr "a"]]) VNull = mret (VBool false)
  /\ apply (obj [VArr 1 [VStr "a"]]) VUndefined = mret (VBool false)
  /\ apply (obj ([VStr "b"] ++ [VArr 1 [VStr "a"]])) (VObj 5 [("a", num 1)])
     = apply (obj [VStr "b"]) (VObj 5 [("a", num 1)]).
Proof.
  split; [ | split; [ | split]].
  - apply (proj2 (proj1 (obj_malformed_entry 1 [VStr "a"]
                           (VObj 5 [("a", num 1)]) [] no_second_element)
                    eq_refl) (num 1)).
    reflexivity.
  - apply (proj1 (proj2 (obj_malformed_entry 1 [VStr "a"] VNull []
                           no_second_element))).
    reflexivity.
  - apply (proj1 (proj2 (obj_malformed_entry 1 [VStr "a"] VUndefined []
                           no_second_element))).
    reflexivity.
  - apply (proj2 (proj2 (obj_malformed_entry 1 [VStr "a"]
                           (VObj 5 [("a", num 1)]) [VStr "b"]
                           no_second_element)) (VBool false));
      reflexivity.
Defined.

Lemma obj_append_is_and_witness :
  [VStr "b"] <> []
  /\ apply (obj ([VStr "a"] ++ [VStr "b"])) (VObj 5 [("a", num 1)]) =
     apply (and (VFun 1 (obj [VStr "a"])) (VFun 2 (obj [VStr "b"])))
           (VObj 5 [("a", num 1)]).
Proof.
  assert (Hne : [VStr "b"] <> []) by discriminate.
  split; [exact Hne | ].
  exact (obj_append_is_and 1 2 [VStr "a"] [VStr "b"] (VObj 5 [("a", num 1)]) Hne).
Defined.

Lemma assoc_erase (k : string) (props : list (string * value)) :
  assoc k (map (fun p => let '(k0, x) := p in (k0, erase x)) props) =
  option_map erase (assoc k props).
Proof.
  induction props as [ | [k0 x] ps IH]; [reflexivity | ].
  simpl. destruct (String.eqb k k0); [reflexivity | exact IH].
Defined.

Lemma is_callable_erase (x : value) : is_callable (erase x) = is_callable x.
Proof. destruct x; reflexivity. Defined.

Lemma bare_host_lookup (u : value) : has_toJSON (erase u) = has_toJSON u.
Proof.
  destruct u as [ | | b | x | s | i | l f | l elems | l props];
    try reflexivity.
  unfold has_toJSON, get. cbn [erase to_property_key].
  change (Ret (KStr "toJSON") ≫= ?k) with (k (KStr "toJSON")).
  cbn [own_property]. rewrite assoc_erase.
  destruct (assoc "toJSON" props) as [x | ]; [ | reflexivity].
  simpl. rewrite is_callable_erase. reflexivity.
Defined.

Lemma bare_host_text (u : value) : host_to_json (erase u) = host_to_json u.
Proof. reflexivity. Defined.

Lemma deep_ignores_addresses_witness :
  apply (FDeepFn (VStr "[{},null]")) (VArr 7 [VObj 8 []; VNull])
  = mret (VBool true).
Proof.
  apply (deep_ignores_addresses (VArr 1 [VObj 2 []; VNull])
           (VArr 7 [VObj 8 []; VNull]) _ bare_host_lookup bare_host_text);
    reflexivity.
Defined.

Lemma nothing_inherited (ty : string) :
  In ty node_types -> host_inherited (literal_types 0) (KStr ty) = Ret VUndefined.
Proof. intros _. reflexivity. Defined.

Lemma node_tests_partition_witness :
  exists n v, node_of Grammar.NUMBER "42" = Some n
              /\ isLiteral 0 (Some n) = Ret v
              /\ tests_passed (Some n) v = 1%nat
              /\ (to_boolean v = true -> v = VNum one).
Proof.
  exact (proj1 (node_tests_partition 0 Grammar.NUMBER "42" nothing_inherited)).
Defined.

(** C1 fails as stated.  With no argument [holds] throws on a list (the
    [reduce] of an empty array has no initial value); on an absent subject
    it throws; a function that returns a number makes it, and [and], return
    that number; [not] throws when its argument does; a comparison throws
    on a symbol; [obj] throws at an entry whose second element is not a
    function; and [deep] throws on a subject whose [toJSON] throws. *)
Lemma holds_not_total :
  res (apply (holds []) (VArr 0 [])) = Throw TypeError
  /\ res (apply (holds [VNum one]) VNull) = Throw TypeError
  /\ res (apply (holds [give_one]) (VArr 0 [VNum one])) = Ret (VNum one)
  /\ res (apply (and give_one give_one) (VNum one)) = Ret (VNum one)
  /\ res (apply (not thrower) (VNum one)) = Throw TypeError
  /\ res (apply (lt (VNum one)) (VSymbol 0)) = Throw TypeError
  /\ res (apply (obj [VArr 1 [VStr "a"; VNum one]]) (VObj 5 [("a", VNum one)]))
     = Throw TypeError
  /\ (exists f, deep VNull = Ret f
                /\ res (apply f (VObj 5 [("toJSON", thrower)])) = Throw TypeError)
  /\ ~ (forall (H : Host) (args : list value) (n : value),
          exists b, res (@apply H (holds args) n) = Ret (VBool b)).
Proof.
  repeat split; try reflexivity.
  - eexists. split; reflexivity.
  - intros Hclaim. destruct (Hclaim bare_host [] (VArr 0 [])) as [b Hb].
    discriminate Hb.
Qed.

(** A shape with a range, a negation and a list of tags, and a subject
    it is made for. *)
Lemma shape_in_domain :
  in_domain
    (VFun 1 (obj [entry 2 3 (VStr "age")
                    (VFun 4 (and (VFun 5 (gte (num 1)))
                                 (VFun 6 (not (num 3)))));
                  entry 7 8 (VStr "tags") (VFun 9 (holds [always; VStr "x"]));
                  VStr "name"]))
    (VObj 10 [("age", num 4); ("tags", VArr 11 [VStr "x"]);
              ("name", VStr "Ann")]).
Proof.
  apply dom_obj.
  - intros e He _. apply list_elem_of_In in He. simpl in He.
    destruct He as [<- | [<- | [<- | []]]];
      (split; [reflexivity | eexists; reflexivity]).
  - intros e x He _ Hx. apply list_elem_of_In in He. simpl in He.
    destruct He as [<- | [<- | [<- | []]]]; injection Hx as <-.
    + apply dom_and.
      * apply (dom_gte 5 (number_of_nat 1) (num 4) (number_of_nat 4)).
        reflexivity.
      * apply dom_not, dom_value. discriminate.
    + apply (dom_holds 9 [always; VStr "x"] (VArr 11 [VStr "x"]) [VStr "x"]).
      * discriminate.
      * reflexivity.
      * intros arg item Harg Hitem.
        apply list_elem_of_In in Harg, Hitem. simpl in Harg, Hitem.
        destruct Hitem as [<- | []].
        destruct Harg as [<- | [<- | []]].
        -- apply (dom_caller 101 1 "always" (VStr "x") true). reflexivity.
        -- apply dom_value. discriminate.
    + apply dom_Boolean.
Defined.

Lemma predicates_return_booleans_witness :
  (exists b,
     res (invoke
            (val 0
               (VFun 1 (obj [entry 2 3 (VStr "age")
                               (VFun 4 (and (VFun 5 (gte (num 1)))
                                            (VFun 6 (not (num 3)))));
                             entry 7 8 (VStr "tags")
                               (VFun 9 (holds [always; VStr "x"]));
                             VStr "name"])))
            (VObj 10 [("age", num 4); ("tags", VArr 11 [VStr "x"]);
                      ("name", VStr "Ann")]))
     = Ret (VBool b))
  /\ (exists b, res (apply (or never always) (VNum one)) = Ret (VBool b))
  /\ (exists b, res (apply (not give_one) (VNum one)) = Ret (VBool b)).
Proof.
  split; [ | split].
  - exact (proj1 predicates_return_booleans 0 _ _ shape_in_domain).
  - refine (proj2 (proj1 (proj2 predicates_return_booleans) never always
                     (VNum one) _ _)); eexists; reflexivity.
  - refine (proj2 (proj2 predicates_return_booleans) give_one (VNum one)
              (VNum one) _); reflexivity.
Defined.

Lemma bare_host_numbers (x : spec_float) :
  is_finite x = true -> number_text (host_number_to_string x) = true.
Proof. intros _. reflexivity. Defined.

Lemma bare_host_empty (l : loc) :
  plain (VObj l []) = true /\ plain (VArr l []) = true.
Proof. split; reflexivity. Defined.



End FurtherExamples.
